(** * Release-automation scripts of the date-time-picker repository

    A shallow embedding of the three helper scripts

    - the Resolver, [scripts/version-helper.js] (module [VersionHelper]),
    - the Bumper, the script with the [bump] command in the second half of
      [scripts/test-versioning.js] (module [SafeVersionBump]),
    - the Changelog Generator, the script with the [generate] command in the
      second half of [scripts/test-workflow.js] (module [ChangelogGenerator]),

    together with the JavaScript built-ins they call (module [JS]) and the
    part of the version-control tool they shell out to (module [Git]).  The
    two self-test scripts in the first halves of those files only print.

    Conventions of the embedding.
    - Strings are [string], the bytes of the text.  Case mapping and white
      space are those of ASCII: on a string of ASCII characters
      ([JS.isAscii]) [toLowerCase], [trim] and [parseInt] are the engine's;
      a statement that depends on them for arbitrary text carries that
      hypothesis.
    - A JavaScript number that holds an integer is a [Z]: the integer the
      double stands for.  Reading digits and adding 1 round to the nearest
      double ([JS.toDouble]); printing is the plain decimal numeral, which is
      what the engine prints below 2^54.  A statement that needs the numbers
      of a version to be exact carries the bound 2^53 ([safe],
      [JS.safeLimit]).
    - The history of a repository is the list [git log] prints, and
      [tag..HEAD] is the part of that list above the tagged commit.  That is
      git's answer when everything listed below the tagged commit is reachable
      from it, as on a history without merge commits; a statement that
      depends on it for every repository carries that hypothesis
      ([plainRepository]).
    - Files and the repository are fields of a [World] that every operation
      threads; [process.exit] ends a run with a status.
    - Console output is not part of the state: nothing below depends on it. *)

From Stdlib Require Import String Ascii List ZArith Lia Bool.
From Stdlib Require Import DecimalString DecimalPos DecimalZ.
From Stdlib Require Import Permutation.
Import ListNotations.

Local Open Scope list_scope.
Local Open Scope string_scope.

(* ================================================================== *)
(** * JavaScript built-ins *)
(* ================================================================== *)

Module JS.

(** ** Strings *)

(** White space as [String.prototype.trim] and [parseInt] see it among the
    ASCII characters: TAB, LF, VT, FF, CR, SP. *)
Definition isWhiteSpace (c : ascii) : bool :=
  let n := nat_of_ascii c in
  Nat.eqb n 9 || Nat.eqb n 10 || Nat.eqb n 11 || Nat.eqb n 12
  || Nat.eqb n 13 || Nat.eqb n 32.

(** The lower-case form of an ASCII character. *)
Definition lowerChar (c : ascii) : ascii :=
  let n := nat_of_ascii c in
  if Nat.leb 65 n && Nat.leb n 90 then ascii_of_nat (n + 32) else c.

(** [s.toLowerCase()] *)
Fixpoint toLowerCase (s : string) : string :=
  match s with
  | EmptyString => EmptyString
  | String c r => String (lowerChar c) (toLowerCase r)
  end.

(** [s.startsWith(p)] *)
Definition startsWith (p s : string) : bool := String.prefix p s.

(** [s.includes(p)] *)
Fixpoint includes (p s : string) : bool :=
  String.prefix p s ||
  match s with
  | EmptyString => false
  | String _ r => includes p r
  end.

Fixpoint trimStart (s : string) : string :=
  match s with
  | EmptyString => EmptyString
  | String c r => if isWhiteSpace c then trimStart r else s
  end.

Fixpoint trimEnd (s : string) : string :=
  match s with
  | EmptyString => EmptyString
  | String c r =>
      match trimEnd r with
      | EmptyString => if isWhiteSpace c then EmptyString else String c EmptyString
      | t => String c t
      end
  end.

(** [s.trim()] *)
Definition trim (s : string) : string := trimEnd (trimStart s).

(** The strings on which the functions above are the engine's: every
    character is below 128. *)
Definition isAsciiChar (c : ascii) : bool := Nat.ltb (nat_of_ascii c) 128.

Fixpoint isAscii (s : string) : bool :=
  match s with
  | EmptyString => true
  | String c r => isAsciiChar c && isAscii r
  end.

(** A string is truthy when it is not empty. *)
Definition nonEmpty (s : string) : bool :=
  match s with EmptyString => false | _ => true end.

(** [s.split(sep)] for a one-character separator: never the empty list. *)
Fixpoint split (sep : ascii) (s : string) : list string :=
  match s with
  | EmptyString => [EmptyString]
  | String c r =>
      if Ascii.eqb c sep then EmptyString :: split sep r
      else match split sep r with
           | h :: t => String c h :: t
           | [] => [String c EmptyString]
           end
  end.

(** [l.join(sep)] *)
Definition join (sep : string) (l : list string) : string := String.concat sep l.

Definition LF : ascii := ascii_of_nat 10.
Definition newline : string := String LF EmptyString.

(** ** Arrays *)

(** [l.findIndex(p)]: the first index whose element satisfies [p], or -1. *)
Fixpoint findIndex {A : Type} (p : A -> bool) (l : list A) : Z :=
  match l with
  | [] => -1
  | x :: r =>
      if p x then 0
      else let i := findIndex p r in if (i =? -1)%Z then (-1)%Z else (i + 1)%Z
  end.

(** [l.slice(0, n)] and [l.slice(n)] for an index [n >= 0]. *)
Definition sliceTo {A : Type} (n : Z) (l : list A) : list A := firstn (Z.to_nat n) l.
Definition sliceFrom {A : Type} (n : Z) (l : list A) : list A := skipn (Z.to_nat n) l.

(** ** Numbers *)

(** The numbers the scripts meet: NaN, or a double that holds an integer,
    written as that integer. *)
Inductive number : Type :=
| NaN
| Num (z : Z).

(** 2^53: up to here every integer is a double. *)
Definition safeLimit : Z := 9007199254740992.

(** The double nearest to an integer, ties to the even significand (53
    bits).  Overflow to [Infinity], from 2^1024 on, is not modelled. *)
Definition toDouble (z : Z) : Z :=
  let a := Z.abs z in
  if (a <? safeLimit)%Z then z
  else
    let k := (Z.log2 a - 52)%Z in
    let q := (a / 2 ^ k)%Z in
    let r := (a - q * 2 ^ k)%Z in
    let half := (2 ^ (k - 1))%Z in
    let q' := if (half <? r)%Z || ((r =? half)%Z && Z.odd q) then (q + 1)%Z else q in
    (Z.sgn z * (q' * 2 ^ k))%Z.

(** A value read out of an array by position: [None] is [undefined]. *)
Definition value : Type := option number.

Definition digitValue (c : ascii) : option Z :=
  let n := nat_of_ascii c in
  if Nat.leb 48 n && Nat.leb n 57 then Some (Z.of_nat (n - 48))
  else if Nat.leb 97 n && Nat.leb n 122 then Some (Z.of_nat (n - 87))
  else if Nat.leb 65 n && Nat.leb n 90 then Some (Z.of_nat (n - 55))
  else None.

Definition isRadixDigit (radix : Z) (c : ascii) : bool :=
  match digitValue c with
  | Some d => (d <? radix)%Z
  | None => false
  end.

(** The longest prefix made of radix-[radix] digits. *)
Fixpoint takeDigits (radix : Z) (s : string) : string :=
  match s with
  | EmptyString => EmptyString
  | String c r => if isRadixDigit radix c then String c (takeDigits radix r) else EmptyString
  end.

Fixpoint allDigits (radix : Z) (s : string) : bool :=
  match s with
  | EmptyString => true
  | String c r => isRadixDigit radix c && allDigits radix r
  end.

(** The integer a digit string denotes, most significant digit first. *)
Fixpoint digitsValue (radix : Z) (acc : Z) (s : string) : Z :=
  match s with
  | EmptyString => acc
  | String c r =>
      digitsValue radix
        (acc * radix + match digitValue c with Some d => d | None => 0 end)%Z r
  end.

Definition stripSign (s : string) : Z * string :=
  match s with
  | String "-"%char r => ((-1)%Z, r)
  | String "+"%char r => (1%Z, r)
  | _ => (1%Z, s)
  end.

Definition stripHexPrefix (s : string) : Z * string :=
  match s with
  | String "0"%char (String "x"%char r) => (16%Z, r)
  | String "0"%char (String "X"%char r) => (16%Z, r)
  | _ => (10%Z, s)
  end.

(** [parseInt(s)] with no radix argument: leading white space, an optional
    sign, an optional [0x] prefix, then the longest run of digits; NaN when
    that run is empty. *)
Definition parseInt (s : string) : number :=
  let (sign, s2) := stripSign (trimStart s) in
  let (radix, s3) := stripHexPrefix s2 in
  match takeDigits radix s3 with
  | EmptyString => NaN
  | z => Num (toDouble (sign * digitsValue radix 0 z))
  end.

(** [Number(s)] on the forms a version component takes: white space around
    an optional sign and decimal digits; the empty string is 0.  Literals
    with an exponent, a radix prefix or [Infinity] are outside the embedding
    (no result below is stated on them). *)
Definition StringToNumber (s : string) : number :=
  match trim s with
  | EmptyString => Num 0
  | t =>
      let (sign, d) := stripSign t in
      if nonEmpty d && allDigits 10 d then Num (toDouble (sign * digitsValue 10 0 d))
      else NaN
  end.

(** [x || y] on numbers: NaN and 0 are falsy. *)
Definition truthy (x : number) : bool :=
  match x with
  | NaN => false
  | Num z => negb (z =? 0)%Z
  end.

Definition or (x y : number) : number := if truthy x then x else y.

(** [x || y] on integers: only 0 is falsy. *)
Definition orElse (x y : Z) : Z := if (x =? 0)%Z then y else x.

(** [x > y] and [x < y]: false as soon as an operand is NaN or undefined. *)
Definition gt (x : value) (y : Z) : bool :=
  match x with
  | Some (Num a) => (y <? a)%Z
  | _ => false
  end.

Definition lt (x : value) (y : Z) : bool :=
  match x with
  | Some (Num a) => (a <? y)%Z
  | _ => false
  end.

(** [x + 1], rounded as the engine rounds it. *)
Definition succ (x : value) : number :=
  match x with
  | Some (Num a) => Num (toDouble (a + 1))
  | _ => NaN
  end.

(** Decimal rendering of an integer, as a template literal prints a double
    below 2^54 that holds it. *)
Definition showZ (z : Z) : string := NilEmpty.string_of_int (Z.to_int z).

Definition showNumber (x : number) : string :=
  match x with
  | NaN => "NaN"
  | Num z => showZ z
  end.

Definition showValue (x : value) : string :=
  match x with
  | None => "undefined"
  | Some n => showNumber n
  end.

End JS.

(* ================================================================== *)
(** * The version-control tool *)
(* ================================================================== *)

(** The scripts only talk to git through a handful of command lines.  The
    module gives those commands a meaning on the list of commits [git log]
    prints, newest first, following git's documentation: [--oneline] prints
    the abbreviated hash, a space and the subject; [A..HEAD] lists what HEAD
    reaches and [A] does not; [--no-merges] drops commits with more than one
    parent; [-n] keeps the first [n] of what is left; [git log] fails on a
    history without commits and on an unknown revision.

    [A..HEAD] is read off the list: the commits above the one [A] names.
    This is git's answer when every commit listed below the tagged one is
    reachable from it, which is always so on a history without merge
    commits, and is so for a merge whose side branch started at or above the
    tag.  A side branch with commits older than the tag is outside the
    module. *)

Module Git.

Record Commit : Type := mkCommit {
  hash : string;            (* abbreviated object name *)
  subject : string;         (* first line of the message *)
  parents : nat;            (* number of parents *)
  tags : list string        (* tags that point at the commit *)
}.

Record Repo : Type := mkRepo {
  branch : option string;   (* symbolic name of HEAD; [None]: the query fails *)
  history : list Commit     (* what HEAD reaches, newest first *)
}.

Definition isMerge (c : Commit) : bool := Nat.ltb 1 (parents c).

Definition oneline (c : Commit) : string := hash c ++ " " ++ subject c.

(** The nearest tag below HEAD. *)
Fixpoint lastTag (h : list Commit) : option string :=
  match h with
  | [] => None
  | c :: r =>
      match tags c with
      | t :: _ => Some t
      | [] => lastTag r
      end
  end.

(** The commits of [t..HEAD], on a history where all that is listed below
    the commit tagged [t] is reachable from it; [None] when no commit carries
    the tag [t]. *)
Fixpoint since (t : string) (h : list Commit) : option (list Commit) :=
  match h with
  | [] => None
  | c :: r =>
      if existsb (String.eqb t) (tags c) then Some []
      else option_map (cons c) (since t r)
  end.

Inductive Command : Type :=
| RevParseHead
| DescribeOrEmpty
| Log (range : option string) (noMerges : bool) (count : option Z).

(** The text of each command as the scripts write it. *)
Definition commandLine (c : Command) : string :=
  match c with
  | RevParseHead => "git rev-parse --abbrev-ref HEAD"
  | DescribeOrEmpty => "git describe --tags --abbrev=0 2>/dev/null || echo " ++ String (ascii_of_nat 34) (String (ascii_of_nat 34) EmptyString)
  | Log range noMerges count =>
      "git log "
      ++ match range with Some t => t ++ "..HEAD " | None => EmptyString end
      ++ "--oneline"
      ++ (if noMerges then " --no-merges" else EmptyString)
      ++ match count with Some n => " -" ++ JS.showZ n | None => EmptyString end
  end.

Definition printLines (l : list string) : string :=
  String.concat EmptyString (map (fun s => s ++ JS.newline) l).

(** Standard output of a command, [None] when it exits with an error. *)
Definition run (c : Command) (r : Repo) : option string :=
  match c with
  | RevParseHead => option_map (fun b => b ++ JS.newline) (branch r)
  | DescribeOrEmpty =>
      match lastTag (history r) with
      | Some t => Some (t ++ JS.newline)
      | None => Some JS.newline
      end
  | Log range noMerges count =>
      match history r with
      | [] => None
      | _ =>
          match (match range with
                 | Some t => since t (history r)
                 | None => Some (history r)
                 end) with
          | None => None
          | Some cs =>
              let kept := if noMerges then filter (fun c => negb (isMerge c)) cs else cs in
              let shown := match count with
                           | Some n => firstn (Z.to_nat n) kept
                           | None => kept
                           end in
              Some (printLines (map oneline shown))
          end
      end
  end.

End Git.

(* ================================================================== *)
(** * Files, processes *)
(* ================================================================== *)

(** A [package.json], reduced to the two fields the scripts touch. *)
Record Manifest : Type := mkManifest {
  name : string;
  version : string
}.

Definition setVersion (v : string) (m : Manifest) : Manifest :=
  {| name := name m; version := v |}.

Definition setName (n : string) (m : Manifest) : Manifest :=
  {| name := n; version := version m |}.

Record World : Type := mkWorld {
  repo : Git.Repo;
  rootPackage : Manifest;             (* package.json *)
  libPackage : option Manifest;       (* projects/picker/package.json, if it exists *)
  changelogFile : option string       (* CHANGELOG.md, if it exists *)
}.

Definition writeRoot (m : Manifest) (w : World) : World :=
  {| repo := repo w; rootPackage := m; libPackage := libPackage w;
     changelogFile := changelogFile w |}.

Definition writeLib (m : Manifest) (w : World) : World :=
  {| repo := repo w; rootPackage := rootPackage w; libPackage := Some m;
     changelogFile := changelogFile w |}.

Definition writeChangelog (c : string) (w : World) : World :=
  {| repo := repo w; rootPackage := rootPackage w; libPackage := libPackage w;
     changelogFile := Some c |}.

(** A run either comes back with a value or ends the process through
    [process.exit]; both leave a world behind. *)
Inductive Outcome (A : Type) : Type :=
| Returned (a : A) (w : World)
| Exited (status : Z) (w : World).

Arguments Returned {A} a w.
Arguments Exited {A} status w.

Definition Proc (A : Type) : Type := World -> Outcome A.

Definition ret {A : Type} (a : A) : Proc A := fun w => Returned a w.

Definition bind {A B : Type} (m : Proc A) (k : A -> Proc B) : Proc B :=
  fun w =>
    match m w with
    | Returned a w' => k a w'
    | Exited s w' => Exited s w'
    end.

Definition exit {A : Type} (status : Z) : Proc A := fun w => Exited status w.

Definition getWorld : Proc World := fun w => Returned w w.

Definition modify (f : World -> World) : Proc unit := fun w => Returned tt (f w).

Notation "x <- m ;; k" := (bind m (fun x => k))
  (at level 61, m at next level, right associativity).
Notation "m ;;; k" := (bind m (fun _ => k))
  (at level 61, right associativity).

(** The status the operating system sees: 0 when the script runs to its end. *)
Definition exitStatus {A : Type} (o : Outcome A) : Z :=
  match o with
  | Returned _ _ => 0%Z
  | Exited s _ => s
  end.

Definition finalWorld {A : Type} (o : Outcome A) : World :=
  match o with
  | Returned _ w => w
  | Exited _ w => w
  end.

(* ================================================================== *)
(** * The Resolver (scripts/version-helper.js) *)
(* ================================================================== *)

Module VersionHelper.

Definition getCurrentBranch : Proc string :=
  fun w =>
    match Git.run Git.RevParseHead (repo w) with
    | Some out => Returned (JS.trim out) w
    | None => Exited 1 w
    end.

Definition getCurrentVersionFromPackage : Proc string :=
  w <- getWorld ;; ret (version (rootPackage w)).

(** [parseInt(versionParts[i]) || 0]; an index past the end reads
    [undefined], which [parseInt] sees as the string "undefined". *)
Definition part (versionParts : list string) (i : nat) : JS.number :=
  JS.or (JS.parseInt (nth i versionParts "undefined")) (JS.Num 0).

(** [x !== y] on numbers. *)
Definition differs (x : JS.number) (y : Z) : bool :=
  match x with
  | JS.NaN => true
  | JS.Num a => negb (a =? y)%Z
  end.

Definition currentMajor (currentVersion : string) : JS.number :=
  part (JS.split "."%char currentVersion) 0.

Definition currentMinor (currentVersion : string) : JS.number :=
  part (JS.split "."%char currentVersion) 1.

Definition currentPatch (currentVersion : string) : JS.number :=
  part (JS.split "."%char currentVersion) 2.

(** The package name gets the suffix unless it already contains it. *)
Definition withSuffix (packageNameSuffix : string) (m : Manifest) : Manifest :=
  if JS.nonEmpty packageNameSuffix && negb (JS.includes packageNameSuffix (name m))
  then setName (name m ++ packageNameSuffix) m
  else m.

Definition updatePackageVersion : Proc unit :=
  w0 <- getWorld ;;
  let packageJson := rootPackage w0 in
  currentBranch <- getCurrentBranch ;;
  let currentVersion := version packageJson in
  let packageNameSuffix := EmptyString in
  if String.eqb currentBranch "main" then
    let targetMajor := 15%Z in
    let newVersion :=
      if differs (currentMajor currentVersion) targetMajor
      then JS.showZ targetMajor ++ ".2." ++ JS.showNumber (currentPatch currentVersion)
      else currentVersion in
    if negb (String.eqb newVersion currentVersion) then
      modify (writeRoot (withSuffix packageNameSuffix (setVersion newVersion packageJson))) ;;;
      w1 <- getWorld ;;
      match libPackage w1 with
      | Some libPackageJson =>
          modify (writeLib (withSuffix packageNameSuffix (setVersion newVersion libPackageJson)))
      | None => ret tt
      end
    else
      if JS.nonEmpty packageNameSuffix && negb (JS.includes packageNameSuffix (name packageJson))
      then modify (writeRoot (setName (name packageJson ++ packageNameSuffix) packageJson))
      else ret tt
  else
    ret tt.

Definition validateVersionForBranch : Proc unit :=
  currentBranch <- getCurrentBranch ;;
  currentVersion <- getCurrentVersionFromPackage ;;
  if String.eqb currentBranch "main" && differs (currentMajor currentVersion) 15
  then exit 1
  else ret tt.

(** [getVersionInfo] only reads; the command prints what it returns. *)
Definition getVersionInfo : Proc unit :=
  getCurrentBranch ;;; ret tt.

(** The command-line interface; [None] is a missing argument. *)
Definition main (command : option string) : Proc unit :=
  match command with
  | Some c =>
      if String.eqb c "update" then updatePackageVersion
      else if String.eqb c "info" then getVersionInfo
      else if String.eqb c "validate" then validateVersionForBranch
      else exit 1
  | None => exit 1
  end.

End VersionHelper.

(* ================================================================== *)
(** * The Bumper (scripts/test-versioning.js, second script) *)
(* ================================================================== *)

Module SafeVersionBump.

(** [runCommand]: the trimmed output, or the empty string when the command
    fails (the error is caught and logged). *)
Definition runCommand (command : Git.Command) : Proc string :=
  fun w =>
    match Git.run command (repo w) with
    | Some result => Returned (JS.trim result) w
    | None => Returned EmptyString w
    end.

Definition getCurrentBranch : Proc string :=
  fun w =>
    match Git.run Git.RevParseHead (repo w) with
    | Some out => Returned (JS.trim out) w
    | None => Exited 1 w
    end.

Record Constraints : Type := mkConstraints {
  maxMajor : Z;
  defaultMinor : Z
}.

Definition getVersionConstraints (branch : string) : option Constraints :=
  if String.eqb branch "main" then Some {| maxMajor := 15; defaultMinor := 2 |}
  else None.

Definition getCommitsSinceLastTag : Proc (list string) :=
  lastTag <- runCommand Git.DescribeOrEmpty ;;
  let gitLogCommand :=
    if JS.nonEmpty lastTag then Git.Log (Some lastTag) false None
    else Git.Log None false (Some 10%Z) in
  commits <- runCommand gitLogCommand ;;
  ret (if JS.nonEmpty commits
       then filter (fun line => JS.nonEmpty (JS.trim line)) (JS.split JS.LF commits)
       else []).

(** The three flags of the loop in [analyzeCommits]. *)
Record Flags : Type := mkFlags {
  hasBreaking : bool;
  hasFeature : bool;
  hasFix : bool
}.

Definition analyzeStep (f : Flags) (commit : string) : Flags :=
  let message := JS.toLowerCase commit in
  {| hasBreaking :=
       if JS.includes "breaking change" message || JS.includes "!:" message
       then true else hasBreaking f;
     hasFeature :=
       if JS.startsWith "feat:" message || JS.startsWith "feat(" message
       then true else hasFeature f;
     hasFix :=
       if JS.startsWith "fix:" message || JS.startsWith "fix(" message
       then true else hasFix f |}.

Definition analyzeCommits (commits : list string) : string :=
  let f := fold_left analyzeStep commits
             {| hasBreaking := false; hasFeature := false; hasFix := false |} in
  if hasBreaking f || hasFeature f then "minor"
  else if hasFix f then "patch"
  else "patch".

Definition calculateNewVersion (currentVersion bumpType : string)
    (constraints : Constraints) : string :=
  let numbers := map JS.StringToNumber (JS.split "."%char currentVersion) in
  let major := nth_error numbers 0 in
  let minor := nth_error numbers 1 in
  let patch := nth_error numbers 2 in
  if JS.gt major (maxMajor constraints) then
    JS.showZ (maxMajor constraints) ++ "." ++ JS.showZ (defaultMinor constraints) ++ ".0"
  else if JS.lt major (maxMajor constraints) then
    JS.showZ (maxMajor constraints) ++ "." ++ JS.showZ (defaultMinor constraints)
      ++ "." ++ JS.showValue patch
  else if String.eqb bumpType "minor" then
    JS.showValue major ++ "." ++ JS.showNumber (JS.succ minor) ++ ".0"
  else if String.eqb bumpType "patch" then
    JS.showValue major ++ "." ++ JS.showValue minor ++ "." ++ JS.showNumber (JS.succ patch)
  else currentVersion.

Definition updatePackageFiles (newVersion : string) : Proc unit :=
  w <- getWorld ;;
  modify (writeRoot (setVersion newVersion (rootPackage w))) ;;;
  w1 <- getWorld ;;
  match libPackage w1 with
  | Some libPackageJson => modify (writeLib (setVersion newVersion libPackageJson))
  | None => ret tt
  end.

Definition safeBumpVersion : Proc unit :=
  currentBranch <- getCurrentBranch ;;
  match getVersionConstraints currentBranch with
  | None => ret tt
  | Some constraints =>
      w <- getWorld ;;
      let currentVersion := version (rootPackage w) in
      commits <- getCommitsSinceLastTag ;;
      if Nat.eqb (List.length commits) 0 then ret tt
      else
        let bumpType := analyzeCommits commits in
        let newVersion := calculateNewVersion currentVersion bumpType constraints in
        if String.eqb newVersion currentVersion then ret tt
        else
          let newMajor :=
            nth_error (map JS.StringToNumber (JS.split "."%char newVersion)) 0 in
          if JS.gt newMajor (maxMajor constraints) then exit 1
          else updatePackageFiles newVersion
  end.

Definition main (command : option string) : Proc unit :=
  match command with
  | Some c => if String.eqb c "bump" then safeBumpVersion else exit 1
  | None => exit 1
  end.

End SafeVersionBump.

(* ================================================================== *)
(** * The Changelog Generator (scripts/test-workflow.js, second script) *)
(* ================================================================== *)

(** The embedding covers collecting and sorting the commits, rendering an
    entry and inserting it into the changelog; staging, committing and
    tagging the result are not modelled. *)

Module ChangelogGenerator.

Definition runCommand (command : Git.Command) : Proc string :=
  fun w =>
    match Git.run command (repo w) with
    | Some result => Returned (JS.trim result) w
    | None => Returned EmptyString w
    end.

Record Collected : Type := mkCollected {
  commits : list string;
  lastTag : option string
}.

Definition getCommitsSinceLastTag : Proc Collected :=
  tag <- runCommand Git.DescribeOrEmpty ;;
  let gitLogCommand :=
    if JS.nonEmpty tag then Git.Log (Some tag) true None
    else Git.Log None true (Some 10%Z) in
  out <- runCommand gitLogCommand ;;
  ret {| commits :=
           if JS.nonEmpty out
           then filter (fun line => JS.nonEmpty (JS.trim line)) (JS.split JS.LF out)
           else [];
         lastTag := if JS.nonEmpty tag then Some tag else None |}.

Record Categories : Type := mkCategories {
  breaking : list string;
  features : list string;
  fixes : list string;
  other : list string
}.

Definition categorizeStep (categories : Categories) (commit : string) : Categories :=
  let message := JS.toLowerCase commit in
  let fullCommit := commit in
  if JS.includes "breaking change" message || JS.includes "!:" message then
    {| breaking := (breaking categories ++ [fullCommit])%list;
       features := features categories;
       fixes := fixes categories;
       other := other categories |}
  else if JS.includes "feat:" message || JS.includes "feat(" message then
    {| breaking := breaking categories;
       features := (features categories ++ [fullCommit])%list;
       fixes := fixes categories;
       other := other categories |}
  else if JS.includes "fix:" message || JS.includes "fix(" message then
    {| breaking := breaking categories;
       features := features categories;
       fixes := (fixes categories ++ [fullCommit])%list;
       other := other categories |}
  else
    {| breaking := breaking categories;
       features := features categories;
       fixes := fixes categories;
       other := (other categories ++ [fullCommit])%list |}.

Definition categorizeCommits (commits : list string) : Categories :=
  fold_left categorizeStep commits
    {| breaking := []; features := []; fixes := []; other := [] |}.

(** One bullet: the line without its first word, then that word in
    parentheses. *)
Definition bullet (commit : string) : string :=
  match JS.split " "%char commit with
  | hash :: messageParts =>
      "- " ++ JS.join " " messageParts ++ " (" ++ hash ++ ")" ++ JS.newline
  | [] => "-  (undefined)" ++ JS.newline
  end.

Definition section (title : string) (commits : list string) : string :=
  if Nat.ltb 0 (List.length commits)
  then title ++ JS.newline ++ String.concat EmptyString (map bullet commits) ++ JS.newline
  else EmptyString.

(** [date] stands for [new Date().toISOString().split('T')[0]]. *)
Definition generateChangelogEntry (date : string) (version : string)
    (categories : Categories) (branch : string) : string :=
  let angularVersion := "15.x" in
  "## [" ++ version ++ "] - " ++ date ++ JS.newline ++ JS.newline
  ++ "### Angular " ++ angularVersion ++ " Compatibility" ++ JS.newline ++ JS.newline
  ++ section "### 🚨 Breaking Changes" (breaking categories)
  ++ section "### ✨ Features" (features categories)
  ++ section "### 🐛 Bug Fixes" (fixes categories)
  ++ section "### 🔧 Other Changes" (other categories).

(** The text a missing CHANGELOG.md starts from. *)
Definition initialContent : string :=
  "# Changelog" ++ JS.newline ++ JS.newline
  ++ "All notable changes to this project will be documented in this file."
  ++ JS.newline ++ JS.newline.

Definition isEntryLine (line : string) : bool := JS.startsWith "## [" line.

(** The body of [updateChangelog], from the text read to the text written. *)
Definition insertEntry (existingContent newEntry : string) : string :=
  let lines := JS.split JS.LF existingContent in
  let headerEndIndex :=
    JS.orElse (JS.findIndex isEntryLine lines) (Z.of_nat (List.length lines)) in
  if (headerEndIndex =? -1)%Z || (headerEndIndex =? Z.of_nat (List.length lines))%Z then
    let headerLines := JS.sliceTo 3 lines in
    JS.join JS.newline
      (headerLines ++ [EmptyString; JS.trim newEntry; EmptyString] ++ JS.sliceFrom 3 lines)%list
  else
    JS.join JS.newline
      (JS.sliceTo headerEndIndex lines ++ [JS.trim newEntry; EmptyString]
       ++ JS.sliceFrom headerEndIndex lines)%list.

Definition existingContent (w : World) : string :=
  match changelogFile w with
  | Some text => text
  | None => initialContent
  end.

Definition updateChangelog (newEntry : string) : Proc unit :=
  w <- getWorld ;;
  modify (writeChangelog (insertEntry (existingContent w) newEntry)).

End ChangelogGenerator.

(* ================================================================== *)
(** * The tests of the classifiers, on the string they are handed *)
(* ================================================================== *)

(** The three conditions of the loop in [analyzeCommits], as functions of
    the string bound to [commit]: a line of the log, hash first. *)

Module Rules.

Inductive Kind : Type := Breaking | Feature | Fix | Other.

Definition Kind_eqb (a b : Kind) : bool :=
  match a, b with
  | Breaking, Breaking | Feature, Feature | Fix, Fix | Other, Other => true
  | _, _ => false
  end.

(** the lower-cased line contains "breaking change", or the line "!:" *)
Definition isBreaking (commit : string) : bool :=
  JS.includes "breaking change" (JS.toLowerCase commit) || JS.includes "!:" commit.

(** the lower-cased line begins with "feat:" or "feat(" *)
Definition isFeature (commit : string) : bool :=
  JS.startsWith "feat:" (JS.toLowerCase commit)
  || JS.startsWith "feat(" (JS.toLowerCase commit).

(** the lower-cased line begins with "fix:" or "fix(" *)
Definition isFix (commit : string) : bool :=
  JS.startsWith "fix:" (JS.toLowerCase commit)
  || JS.startsWith "fix(" (JS.toLowerCase commit).

End Rules.

(* ================================================================== *)
(** * The specification's words *)
(* ================================================================== *)

(** Section 3 has a commit record as a pair of a hash and a message, and
    classifies it by matching on the message without regard to case;
    section 4.2 names the three tests and ranks them breaking > feature >
    fix > other.  The definitions below say that on the message alone and
    compare letters by their upper-case forms; they use nothing of the
    scripts. *)

Module Spec.

Definition upper (c : ascii) : ascii :=
  let n := nat_of_ascii c in
  if Nat.leb 97 n && Nat.leb n 122 then ascii_of_nat (n - 32) else c.

(** The same character, up to the case of a letter. *)
Definition sameLetter (a b : ascii) : bool := Ascii.eqb (upper a) (upper b).

(** [s] begins with [p], whatever the case. *)
Fixpoint beginsCI (p s : string) : bool :=
  match p, s with
  | EmptyString, _ => true
  | String _ _, EmptyString => false
  | String a p', String b s' => sameLetter a b && beginsCI p' s'
  end.

(** [s] contains [p], whatever the case. *)
Fixpoint containsCI (p s : string) : bool :=
  beginsCI p s ||
  match s with
  | EmptyString => false
  | String _ r => containsCI p r
  end.

(** [s] begins with [p], contains [p]. *)
Fixpoint begins (p s : string) : bool :=
  match p, s with
  | EmptyString, _ => true
  | String _ _, EmptyString => false
  | String a p', String b s' => Ascii.eqb a b && begins p' s'
  end.

Fixpoint contains (p s : string) : bool :=
  begins p s ||
  match s with
  | EmptyString => false
  | String _ r => contains p r
  end.

(** the message contains "breaking change" (case-insensitive) or the
    substring "!:" *)
Definition breaking (message : string) : bool :=
  containsCI "breaking change" message || contains "!:" message.

(** the message begins with "feat:" or "feat(" *)
Definition feature (message : string) : bool :=
  beginsCI "feat:" message || beginsCI "feat(" message.

(** the message begins with "fix:" or "fix(" *)
Definition bugfix (message : string) : bool :=
  beginsCI "fix:" message || beginsCI "fix(" message.

(** breaking > feature > fix > other *)
Definition classify (message : string) : Rules.Kind :=
  if breaking message then Rules.Breaking
  else if feature message then Rules.Feature
  else if bugfix message then Rules.Fix
  else Rules.Other.

(** The message holds a feature marker, a fix marker, somewhere. *)
Definition mentionsFeature (message : string) : bool :=
  containsCI "feat:" message || containsCI "feat(" message.

Definition mentionsFix (message : string) : bool :=
  containsCI "fix:" message || containsCI "fix(" message.

(** The same ranking with the feature and fix markers looked for anywhere
    in the message. *)
Definition classifyAnywhere (message : string) : Rules.Kind :=
  if breaking message then Rules.Breaking
  else if mentionsFeature message then Rules.Feature
  else if mentionsFix message then Rules.Fix
  else Rules.Other.

(** The bump section 4.2 asks for: minor when a commit is breaking or a
    feature, patch otherwise. *)
Definition bump (messages : list string) : string :=
  if existsb (fun m => breaking m || feature m) messages then "minor" else "patch".

(** ** Components of a version *)

Definition isBlank (c : ascii) : bool :=
  match nat_of_ascii c with
  | 9 | 10 | 11 | 12 | 13 | 32 => true
  | _ => false
  end.

Definition isDecimal (c : ascii) : bool :=
  let n := nat_of_ascii c in Nat.leb 48 n && Nat.leb n 57.

Definition isHexadecimal (c : ascii) : bool :=
  let n := nat_of_ascii c in
  isDecimal c || (Nat.leb 65 n && Nat.leb n 70) || (Nat.leb 97 n && Nat.leb n 102).

Fixpoint skipBlanks (s : string) : string :=
  match s with
  | EmptyString => EmptyString
  | String c r => if isBlank c then skipBlanks r else s
  end.

Definition unsigned (s : string) : string :=
  match s with
  | String c r => if Ascii.eqb c "-" || Ascii.eqb c "+" then r else s
  | EmptyString => EmptyString
  end.

Definition firstIs (p : ascii -> bool) (s : string) : bool :=
  match s with
  | String c _ => p c
  | EmptyString => false
  end.

(** The text opens with a decimal digit, or with "0x" and a hexadecimal
    digit. *)
Definition opensWithDigits (s : string) : bool :=
  match s with
  | String c (String x r) =>
      if Ascii.eqb c "0" && (Ascii.eqb x "x" || Ascii.eqb x "X")
      then firstIs isHexadecimal r
      else isDecimal c
  | String c EmptyString => isDecimal c
  | EmptyString => false
  end.

(** A component leads with an integer: blanks, an optional sign, then
    digits. *)
Definition leadsWithInteger (component : string) : bool :=
  opensWithDigits (unsigned (skipBlanks component)).

End Spec.

(* ================================================================== *)
(** * Vocabulary of the statements *)
(* ================================================================== *)

(** The bucket [categorizeCommits] pushes a commit into, read off the
    conditions of its loop body. *)
Definition bucket (commit : string) : Rules.Kind :=
  let message := JS.toLowerCase commit in
  if JS.includes "breaking change" message || JS.includes "!:" message then Rules.Breaking
  else if JS.includes "feat:" message || JS.includes "feat(" message then Rules.Feature
  else if JS.includes "fix:" message || JS.includes "fix(" message then Rules.Fix
  else Rules.Other.

(** The four buckets a per-commit classification [k] would fill, in the order
    of the commits. *)
Definition sortedBy (k : string -> Rules.Kind) (commits : list string)
    : ChangelogGenerator.Categories :=
  {| ChangelogGenerator.breaking := filter (fun c => Rules.Kind_eqb (k c) Rules.Breaking) commits;
     ChangelogGenerator.features := filter (fun c => Rules.Kind_eqb (k c) Rules.Feature) commits;
     ChangelogGenerator.fixes := filter (fun c => Rules.Kind_eqb (k c) Rules.Fix) commits;
     ChangelogGenerator.other := filter (fun c => Rules.Kind_eqb (k c) Rules.Other) commits |}.

(** The four buckets when each commit record goes where a classification
    [k] of its message sends it: the buckets hold the log lines, in the
    order of the log. *)
Definition sortedRecords (k : string -> Rules.Kind) (history : list Git.Commit)
    : ChangelogGenerator.Categories :=
  {| ChangelogGenerator.breaking :=
       map Git.oneline (filter (fun c => Rules.Kind_eqb (k (Git.subject c)) Rules.Breaking) history);
     ChangelogGenerator.features :=
       map Git.oneline (filter (fun c => Rules.Kind_eqb (k (Git.subject c)) Rules.Feature) history);
     ChangelogGenerator.fixes :=
       map Git.oneline (filter (fun c => Rules.Kind_eqb (k (Git.subject c)) Rules.Fix) history);
     ChangelogGenerator.other :=
       map Git.oneline (filter (fun c => Rules.Kind_eqb (k (Git.subject c)) Rules.Other) history) |}.

Definition appendCategories (a b : ChangelogGenerator.Categories)
    : ChangelogGenerator.Categories :=
  {| ChangelogGenerator.breaking := (ChangelogGenerator.breaking a ++ ChangelogGenerator.breaking b)%list;
     ChangelogGenerator.features := (ChangelogGenerator.features a ++ ChangelogGenerator.features b)%list;
     ChangelogGenerator.fixes := (ChangelogGenerator.fixes a ++ ChangelogGenerator.fixes b)%list;
     ChangelogGenerator.other := (ChangelogGenerator.other a ++ ChangelogGenerator.other b)%list |}.

(** A version triple as the manifests spell it. *)
Definition renderVersion (major minor patch : Z) : string :=
  JS.showZ major ++ "." ++ JS.showZ minor ++ "." ++ JS.showZ patch.

(** The world in which both manifests carry [newVersion]: the root one
    always, the library one when it exists. *)
Definition withVersion (newVersion : string) (w : World) : World :=
  {| repo := repo w;
     rootPackage := setVersion newVersion (rootPackage w);
     libPackage := option_map (setVersion newVersion) (libPackage w);
     changelogFile := changelogFile w |}.


(** The lines of a document. *)
Definition linesOf (content : string) : list string := JS.split JS.LF content.

(** Everything above the first dated entry; the whole document when it has
    no entry. *)
Fixpoint headerBlock (lines : list string) : list string :=
  match lines with
  | [] => []
  | l :: r => if ChangelogGenerator.isEntryLine l then [] else l :: headerBlock r
  end.

(** From the first dated entry on. *)
Fixpoint entriesOf (lines : list string) : list string :=
  match lines with
  | [] => []
  | l :: r => if ChangelogGenerator.isEntryLine l then lines else entriesOf r
  end.

(** A document is compared up to its empty lines. *)
Definition shown (lines : list string) : list string := filter JS.nonEmpty lines.

(** The entry sits right under the header block and above every entry that
    was there before. *)
Definition placedUnderHeader (old new entry : string) : Prop :=
  shown (linesOf new)
  = (shown (headerBlock (linesOf old))
     ++ shown (linesOf (JS.trim entry))
     ++ shown (entriesOf (linesOf old)))%list.

(** A document the insertion handles as intended: its first dated entry has
    something above it, or it has no entry and nothing but empty lines after
    its third line. *)
Definition wellHeaded (content : string) : bool :=
  let lines := linesOf content in
  let i := JS.findIndex ChangelogGenerator.isEntryLine lines in
  if (i =? -1)%Z then forallb (fun l => negb (JS.nonEmpty l)) (skipn 3 lines)
  else negb (i =? 0)%Z.

(** A rendered entry opens with its dated heading. *)
Definition opensWithHeading (entry : string) : bool :=
  ChangelogGenerator.isEntryLine (JS.trim entry).

(** Running [updateChangelog] once per entry, oldest first. *)
Definition insertAll (entries : list string) (w : World) : World :=
  fold_left (fun w e => finalWorld (ChangelogGenerator.updateChangelog e w)) entries w.

(** Does the string hold no occurrence of the character? *)
Fixpoint lacks (c : ascii) (s : string) : bool :=
  match s with
  | EmptyString => true
  | String a r => negb (Ascii.eqb a c) && lacks c r
  end.

Definition startsClean (s : string) : bool :=
  match s with
  | EmptyString => false
  | String c _ => negb (JS.isWhiteSpace c)
  end.

Fixpoint endsClean (s : string) : bool :=
  match s with
  | EmptyString => false
  | String c r =>
      match r with
      | EmptyString => negb (JS.isWhiteSpace c)
      | _ => endsClean r
      end
  end.

(** A line as git prints one: not empty, no white space at either end, no
    line feed inside. *)
Definition cleanLine (s : string) : bool :=
  startsClean s && endsClean s && lacks JS.LF s.

(** The commits above the nearest tagged one. *)
Fixpoint untagged (h : list Git.Commit) : list Git.Commit :=
  match h with
  | [] => []
  | c :: r =>
      match Git.tags c with
      | [] => c :: untagged r
      | _ => []
      end
  end.

Definition nonMerge (c : Git.Commit) : bool := negb (Git.isMerge c).

(** The commits each collector is asked to list. *)
Definition listed (noMerges : bool) (h : list Git.Commit) : list Git.Commit :=
  match Git.lastTag h with
  | Some _ => if noMerges then filter nonMerge (untagged h) else untagged h
  | None => firstn 10 (if noMerges then filter nonMerge h else h)
  end.

(** A commit record as the log shows it: the abbreviated hash is a run of
    hexadecimal digits, the message is the subject, here in ASCII. *)
Definition logged (c : Git.Commit) : bool :=
  JS.nonEmpty (Git.hash c) && JS.allDigits 16 (Git.hash c) && JS.isAscii (Git.subject c).

(** A history without merge commits. *)
Definition linearHistory (h : list Git.Commit) : bool := forallb nonMerge h.

(** A tag name the shell passes on as it is: letters, digits, ".", "-",
    "_" and "/", the first character a letter or a digit. *)
Definition isAlphaNum (c : ascii) : bool :=
  let n := nat_of_ascii c in
  (Nat.leb 48 n && Nat.leb n 57) || (Nat.leb 65 n && Nat.leb n 90)
  || (Nat.leb 97 n && Nat.leb n 122).

Definition isTagChar (c : ascii) : bool :=
  isAlphaNum c || Ascii.eqb c "." || Ascii.eqb c "-" || Ascii.eqb c "_" || Ascii.eqb c "/".

Fixpoint allTagChars (s : string) : bool :=
  match s with
  | EmptyString => true
  | String c r => isTagChar c && allTagChars r
  end.

Definition plainTag (t : string) : bool :=
  match t with
  | EmptyString => false
  | String c _ => isAlphaNum c && allTagChars t
  end.

(** A repository on which the embedding of git and of [trim] is exact: no
    merge commit, log lines that are clean and in ASCII, and a plain name
    for the nearest tag. *)
Definition plainRepository (r : Git.Repo) : Prop :=
  linearHistory (Git.history r) = true
  /\ Forall (fun c => cleanLine (Git.oneline c) = true /\ JS.isAscii (Git.oneline c) = true)
       (Git.history r)
  /\ (forall t, Git.lastTag (Git.history r) = Some t -> plainTag t = true).


(** A version number in the range where every integer, and its successor,
    is a double: from 0 up to 2^53, 2^53 excluded. *)
Definition safe (z : Z) : Prop := (0 <= z < JS.safeLimit)%Z.

(** A policy whose two numbers are integers a double holds. *)
Definition safePolicy (constraints : SafeVersionBump.Constraints) : Prop :=
  (- JS.safeLimit < SafeVersionBump.maxMajor constraints < JS.safeLimit)%Z
  /\ (- JS.safeLimit < SafeVersionBump.defaultMinor constraints < JS.safeLimit)%Z.

(* ================================================================== *)
(** * Sample repositories *)
(* ================================================================== *)

Module Samples.

Definition release : Git.Commit :=
  {| Git.hash := "0c0ffee";
     Git.subject := "chore(release): add changelog for 15.2.5 [skip ci]";
     Git.parents := 1;
     Git.tags := ["main-v15.2.5"] |}.

Definition fixA : Git.Commit :=
  {| Git.hash := "a1b2c3d"; Git.subject := "fix: a"; Git.parents := 1; Git.tags := [] |}.

Definition featB : Git.Commit :=
  {| Git.hash := "e4f5a6b"; Git.subject := "feat: b"; Git.parents := 1; Git.tags := [] |}.

Definition featBang : Git.Commit :=
  {| Git.hash := "c0d1e2f"; Git.subject := "FEAT!: drop the old api";
     Git.parents := 1; Git.tags := [] |}.

Definition docs : Git.Commit :=
  {| Git.hash := "b2c3d4e"; Git.subject := "docs: readme"; Git.parents := 1; Git.tags := [] |}.

Definition docsPrefix : Git.Commit :=
  {| Git.hash := "a1b2c3d"; Git.subject := "docs: explain the prefix: option";
     Git.parents := 1; Git.tags := [] |}.

Definition fixAfterFeat : Git.Commit :=
  {| Git.hash := "d4e5f6a"; Git.subject := "fix: keep feat(x) working";
     Git.parents := 1; Git.tags := [] |}.

Definition mergeX : Git.Commit :=
  {| Git.hash := "9f8e7d6"; Git.subject := "Merge branch 'feature/x'";
     Git.parents := 2; Git.tags := [] |}.

Definition picker (v : string) : Manifest := {| name := "picker-workspace"; version := v |}.
Definition lib (v : string) : Manifest := {| name := "@upped/picker"; version := v |}.

Definition world (branch : string) (history : list Git.Commit) (v : string) : World :=
  {| repo := {| Git.branch := Some branch; Git.history := history |};
     rootPackage := picker v;
     libPackage := Some (lib v);
     changelogFile := None |}.

(** Nothing since the last tag. *)
Definition quiet : World := world "main" [release] "15.2.5".

(** Two commits since the last tag: "fix: a", then "feat: b". *)
Definition fixThenFeat : World := world "main" [featB; fixA; release] "15.2.5".

(** A merge commit on top of a feature since the last tag. *)
Definition merged : World := world "main" [mergeX; featB; release] "15.2.5".

(** Not a repository: every query fails. *)
Definition outside : World :=
  {| repo := {| Git.branch := None; Git.history := [] |};
     rootPackage := picker "15.2.5"; libPackage := None; changelogFile := None |}.

End Samples.

(* ================================================================== *)
(** * Sample changelogs *)
(* ================================================================== *)

Module Changelogs.

Definition entry1 : string :=
  ChangelogGenerator.generateChangelogEntry "2024-05-01" "15.3.0"
    (ChangelogGenerator.categorizeCommits ["e4f5a6b feat: b"; "a1b2c3d fix: a"]) "main".

Definition entry2 : string :=
  ChangelogGenerator.generateChangelogEntry "2024-06-01" "15.3.1"
    (ChangelogGenerator.categorizeCommits ["b2c3d4e fix: c"]) "main".

(** A changelog with a four-line header and no entry yet. *)
Definition longHeader : string :=
  "# Changelog" ++ JS.newline ++ JS.newline
  ++ "All notable changes to this project will be documented in this file."
  ++ JS.newline
  ++ "Versions follow the Angular major this package supports."
  ++ JS.newline.

Definition withChangelog (text : string) (w : World) : World :=
  {| repo := repo w; rootPackage := rootPackage w; libPackage := libPackage w;
     changelogFile := Some text |}.

End Changelogs.

(* ================================================================== *)
(** * The embedding on small inputs *)
(* ================================================================== *)

Example split_version : JS.split "."%char "15.2.5" = ["15"; "2"; "5"].
Proof. reflexivity. Qed.

Example split_empty : JS.split JS.LF EmptyString = [EmptyString].
Proof. reflexivity. Qed.

Example parseInt_prefix : JS.parseInt "15abc" = JS.Num 15.
Proof. reflexivity. Qed.

Example parseInt_hex : JS.parseInt " -0xF" = JS.Num (-15).
Proof. reflexivity. Qed.

Example parseInt_undefined : JS.parseInt "undefined" = JS.NaN.
Proof. reflexivity. Qed.

Example toNumber_blank : JS.StringToNumber EmptyString = JS.Num 0.
Proof. reflexivity. Qed.

Example toDouble_rounds :
  JS.toDouble 9007199254740993 = 9007199254740992%Z
  /\ JS.toDouble 9007199254740995 = 9007199254740996%Z
  /\ JS.toDouble (-9007199254740993) = (-9007199254740992)%Z
  /\ JS.toDouble 18014398509481990 = 18014398509481992%Z
  /\ JS.parseInt "9007199254740993" = JS.Num 9007199254740992
  /\ JS.succ (Some (JS.Num 9007199254740992)) = JS.Num 9007199254740992.
Proof. repeat split; vm_compute; reflexivity. Qed.

Example case_blind_matching :
  Spec.breaking "Drop it. BREAKING CHANGE: no more v1" = true
  /\ Spec.feature "Feat(picker): add a range mode" = true
  /\ Spec.feature "add feat: later" = false
  /\ Spec.classify "feat!: drop the old api" = Rules.Breaking
  /\ Spec.classify "docs: explain the prefix: option" = Rules.Other
  /\ Spec.classifyAnywhere "docs: explain the prefix: option" = Rules.Fix.
Proof. repeat split; reflexivity. Qed.

Example leading_integers :
  Spec.leadsWithInteger " -15abc" = true
  /\ Spec.leadsWithInteger "0x" = false
  /\ Spec.leadsWithInteger "0xF" = true
  /\ Spec.leadsWithInteger "next" = false
  /\ Spec.leadsWithInteger "undefined" = false.
Proof. repeat split; reflexivity. Qed.

Example show_integers :
  JS.showZ 150 = "150" /\ JS.showZ 0 = "0" /\ JS.showZ (-3) = "-3".
Proof. repeat split; reflexivity. Qed.

Example trim_line : JS.trim (" a b " ++ JS.newline) = "a b".
Proof. reflexivity. Qed.

Example findIndex_missing :
  JS.orElse (JS.findIndex (String.eqb "x") ["a"; "b"]) 2 = (-1)%Z.
Proof. reflexivity. Qed.

Example findIndex_first :
  JS.orElse (JS.findIndex (String.eqb "a") ["a"; "b"]) 2 = 2%Z.
Proof. reflexivity. Qed.

Example commandLine_bumper_since :
  Git.commandLine (Git.Log (Some "main-v15.2.5") false None)
  = "git log main-v15.2.5..HEAD --oneline".
Proof. reflexivity. Qed.

Example commandLine_bumper_recent :
  Git.commandLine (Git.Log None false (Some 10%Z)) = "git log --oneline -10".
Proof. reflexivity. Qed.

Example commandLine_generator_since :
  Git.commandLine (Git.Log (Some "main-v15.2.5") true None)
  = "git log main-v15.2.5..HEAD --oneline --no-merges".
Proof. reflexivity. Qed.

Example commandLine_generator_recent :
  Git.commandLine (Git.Log None true (Some 10%Z)) = "git log --oneline --no-merges -10".
Proof. reflexivity. Qed.

Example calculateNewVersion_short :
  SafeVersionBump.calculateNewVersion "15.2" "patch"
    {| SafeVersionBump.maxMajor := 15; SafeVersionBump.defaultMinor := 2 |}
  = "15.2.NaN".
Proof. reflexivity. Qed.

Example analyzeCommits_bare_messages :
  SafeVersionBump.analyzeCommits ["fix: a"; "feat: b"] = "minor"
  /\ SafeVersionBump.analyzeCommits ["a1b2c3d fix: a"; "e4f5a6b feat: b"] = "patch"
  /\ SafeVersionBump.analyzeCommits ["e4f5a6b feat!: b"] = "minor".
Proof. repeat split; reflexivity. Qed.

Example outside_a_repository :
  SafeVersionBump.getCommitsSinceLastTag Samples.outside = Returned [] Samples.outside
  /\ SafeVersionBump.main (Some "bump") Samples.outside = Exited 1 Samples.outside.
Proof. split; reflexivity. Qed.

Example fresh_changelog_lines :
  linesOf ChangelogGenerator.initialContent
  = ["# Changelog"; EmptyString;
     "All notable changes to this project will be documented in this file.";
     EmptyString; EmptyString].
Proof. reflexivity. Qed.

Example fresh_changelog_wellHeaded :
  wellHeaded ChangelogGenerator.initialContent = true
  /\ wellHeaded Changelogs.longHeader = false.
Proof. split; reflexivity. Qed.

(* ================================================================== *)
(** * Facts about the built-ins *)
(* ================================================================== *)

Section StringFacts.

Lemma prefix_includes (p s : string) :
  JS.startsWith p s = true -> JS.includes p s = true.
Proof.
  unfold JS.startsWith. intros H. destruct s; cbn [JS.includes]; rewrite H; reflexivity.
Qed.

Lemma prefix_cons (a b : ascii) (p s : string) :
  String.prefix (String a p) (String b s)
  = if ascii_dec a b then String.prefix p s else false.
Proof. reflexivity. Qed.

Lemma prefix_nil (s : string) : String.prefix EmptyString s = true.
Proof. destruct s; reflexivity. Qed.

Lemma lowerChar_bang (a : ascii) (x : bool) :
  (if ascii_dec "!"%char (JS.lowerChar a) then x else false)
  = (if ascii_dec "!"%char a then x else false).
Proof. destruct a as [[] [] [] [] [] [] [] []]; reflexivity. Qed.

Lemma lowerChar_colon (a : ascii) (x : bool) :
  (if ascii_dec ":"%char (JS.lowerChar a) then x else false)
  = (if ascii_dec ":"%char a then x else false).
Proof. destruct a as [[] [] [] [] [] [] [] []]; reflexivity. Qed.

Lemma prefix_bang_lower (s : string) :
  String.prefix "!:" (JS.toLowerCase s) = String.prefix "!:" s.
Proof.
  destruct s as [|a [|b r]]; cbn [JS.toLowerCase]; try reflexivity.
  - rewrite !prefix_cons. apply lowerChar_bang.
  - rewrite !prefix_cons. rewrite lowerChar_bang.
    destruct (ascii_dec "!"%char a); [|reflexivity].
    rewrite ?prefix_cons, ?prefix_nil. apply lowerChar_colon.
Qed.

(** Lower-casing neither creates nor destroys an occurrence of "!:". *)
Lemma includes_bang_lower (s : string) :
  JS.includes "!:" (JS.toLowerCase s) = JS.includes "!:" s.
Proof.
  induction s as [|a r IH].
  - reflexivity.
  - change (JS.toLowerCase (String a r)) with (String (JS.lowerChar a) (JS.toLowerCase r)).
    change (JS.includes "!:" (String (JS.lowerChar a) (JS.toLowerCase r)))
      with (String.prefix "!:" (JS.toLowerCase (String a r))
            || JS.includes "!:" (JS.toLowerCase r)).
    change (JS.includes "!:" (String a r))
      with (String.prefix "!:" (String a r) || JS.includes "!:" r).
    rewrite prefix_bang_lower, IH. reflexivity.
Qed.

(** [String.prefix] and [JS.includes] against the specification's plain
    matching. *)
Lemma prefix_begins (p s : string) : String.prefix p s = Spec.begins p s.
Proof.
  revert s. induction p as [|a p IH]; intros s.
  - rewrite prefix_nil. destruct s; reflexivity.
  - destruct s as [|b s]; [reflexivity|].
    rewrite prefix_cons. cbn [Spec.begins]. rewrite <- IH.
    destruct (ascii_dec a b) as [->|N].
    + rewrite Ascii.eqb_refl. reflexivity.
    + apply Ascii.eqb_neq in N. rewrite N. reflexivity.
Qed.

Lemma includes_contains (p s : string) : JS.includes p s = Spec.contains p s.
Proof.
  induction s as [|b s IH].
  - cbn [JS.includes Spec.contains]. rewrite prefix_begins. reflexivity.
  - cbn [JS.includes Spec.contains]. rewrite prefix_begins, IH. reflexivity.
Qed.

(** The characters of the markers: none is an upper-case letter. *)
Lemma marker_char (a b : ascii) (x : bool) :
  existsb (Ascii.eqb a) (list_ascii_of_string "breaking ch!:ft(x") = true ->
  (if ascii_dec a (JS.lowerChar b) then x else false) = Spec.sameLetter a b && x.
Proof.
  intros H. cbn [list_ascii_of_string existsb] in H.
  repeat (apply orb_prop in H; destruct H as [H|H];
          [apply Ascii.eqb_eq in H; subst a;
           destruct b as [[] [] [] [] [] [] [] []]; reflexivity|]).
  discriminate H.
Qed.

(** Matching a marker on the lower-cased string is matching it without
    regard to case. *)
Lemma prefix_lower (p s : string) :
  forallb (fun a => existsb (Ascii.eqb a) (list_ascii_of_string "breaking ch!:ft(x"))
    (list_ascii_of_string p) = true ->
  String.prefix p (JS.toLowerCase s) = Spec.beginsCI p s.
Proof.
  revert s. induction p as [|a p IH]; intros s H.
  - rewrite prefix_nil. destruct s; reflexivity.
  - cbn [list_ascii_of_string forallb] in H.
    apply andb_true_iff in H. destruct H as [Ha Hp].
    destruct s as [|b s]; [reflexivity|].
    cbn [JS.toLowerCase Spec.beginsCI]. rewrite prefix_cons.
    rewrite (marker_char a b _ Ha), (IH s Hp). reflexivity.
Qed.

Lemma includes_lower (p s : string) :
  forallb (fun a => existsb (Ascii.eqb a) (list_ascii_of_string "breaking ch!:ft(x"))
    (list_ascii_of_string p) = true ->
  JS.includes p (JS.toLowerCase s) = Spec.containsCI p s.
Proof.
  intros H. induction s as [|b s IH].
  - cbn [JS.toLowerCase JS.includes Spec.containsCI].
    rewrite <- (prefix_lower p EmptyString H). reflexivity.
  - change (JS.includes p (JS.toLowerCase (String b s)))
      with (String.prefix p (JS.toLowerCase (String b s))
            || JS.includes p (JS.toLowerCase s)).
    cbn [Spec.containsCI]. rewrite (prefix_lower p _ H), IH. reflexivity.
Qed.

Lemma toLowerCase_app (a b : string) :
  JS.toLowerCase (a ++ b) = JS.toLowerCase a ++ JS.toLowerCase b.
Proof.
  induction a as [|c r IH]; [reflexivity|].
  cbn [append JS.toLowerCase]. rewrite IH. reflexivity.
Qed.

End StringFacts.

(* ================================================================== *)
(** * The Bumper's classification *)
(* ================================================================== *)

Section Analyze.

Import SafeVersionBump.

(** What the loop of [analyzeCommits] has seen after a run over [commits]. *)
Lemma analyze_fold (commits : list string) (f : Flags) :
  fold_left analyzeStep commits f =
  {| hasBreaking := hasBreaking f || existsb Rules.isBreaking commits;
     hasFeature := hasFeature f || existsb Rules.isFeature commits;
     hasFix := hasFix f || existsb Rules.isFix commits |}.
Proof.
  revert f. induction commits as [|c r IH]; intros f.
  - destruct f as [a b d]. simpl. rewrite !orb_false_r. reflexivity.
  - simpl fold_left. rewrite IH. unfold analyzeStep. simpl.
    unfold Rules.isBreaking, Rules.isFeature, Rules.isFix.
    rewrite <- (includes_bang_lower c).
    destruct f as [a b d]; simpl.
    f_equal.
    + destruct (JS.includes "breaking change" (JS.toLowerCase c)
                || JS.includes "!:" (JS.toLowerCase c)); simpl;
        [ now rewrite orb_true_r | reflexivity ].
    + destruct (JS.startsWith "feat:" (JS.toLowerCase c)
                || JS.startsWith "feat(" (JS.toLowerCase c)); simpl;
        [ now rewrite orb_true_r | reflexivity ].
    + destruct (JS.startsWith "fix:" (JS.toLowerCase c)
                || JS.startsWith "fix(" (JS.toLowerCase c)); simpl;
        [ now rewrite orb_true_r | reflexivity ].
Qed.

Lemma existsb_orb {A : Type} (p q : A -> bool) (l : list A) :
  existsb (fun x => p x || q x) l = existsb p l || existsb q l.
Proof.
  induction l as [|x r IH]; simpl.
  - reflexivity.
  - rewrite IH. destruct (p x), (q x), (existsb p r), (existsb q r); reflexivity.
Qed.

(** The result is one of two strings. *)
Lemma analyzeCommits_two (commits : list string) :
  analyzeCommits commits = "minor" \/ analyzeCommits commits = "patch".
Proof.
  unfold analyzeCommits.
  destruct (hasBreaking _ || hasFeature _); [left; reflexivity|].
  destruct (hasFix _); right; reflexivity.
Qed.

Lemma analyzeCommits_flags (commits : list string) :
  analyzeCommits commits =
  if existsb Rules.isBreaking commits || existsb Rules.isFeature commits
  then "minor" else "patch".
Proof.
  unfold analyzeCommits. rewrite analyze_fold. cbn [hasBreaking hasFeature hasFix orb].
  destruct (existsb Rules.isBreaking commits || existsb Rules.isFeature commits);
    [reflexivity|].
  destruct (existsb Rules.isFix commits); reflexivity.
Qed.

(** C1, what the code does.  The commit record with hash e4f5a6b and message
    "feat: b" is a feature by the rule of section 4.2, so the bump asked for
    is "minor".  [analyzeCommits] is handed the record as its log line,
    "e4f5a6b feat: b", tests the markers at the start of that line, and
    answers "patch". *)
Theorem analyzeCommits_misses_feature :
  Spec.feature (Git.subject Samples.featB) = true
  /\ Spec.bump [Git.subject Samples.featB] = "minor"
  /\ Git.oneline Samples.featB = "e4f5a6b feat: b"
  /\ getCommitsSinceLastTag (Samples.world "main" [Samples.featB; Samples.release] "15.2.5")
     = Returned ["e4f5a6b feat: b"]
         (Samples.world "main" [Samples.featB; Samples.release] "15.2.5")
  /\ analyzeCommits ["e4f5a6b feat: b"] = "patch".
Proof. repeat split. Qed.

End Analyze.

(* ================================================================== *)
(** * Log lines: the hash comes first *)
(* ================================================================== *)

Section LogLines.

Lemma hex_lower_not_t (c : ascii) :
  JS.isRadixDigit 16 c = true -> "t"%char <> JS.lowerChar c.
Proof.
  destruct c as [[] [] [] [] [] [] [] []]; vm_compute; intros H;
    try discriminate H; discriminate.
Qed.

Lemma hex_lower_not_i (c : ascii) :
  JS.isRadixDigit 16 c = true -> "i"%char <> JS.lowerChar c.
Proof.
  destruct c as [[] [] [] [] [] [] [] []]; vm_compute; intros H;
    try discriminate H; discriminate.
Qed.

Lemma hex_lower_not_r (c : ascii) :
  JS.isRadixDigit 16 c = true -> "r"%char <> JS.lowerChar c.
Proof.
  destruct c as [[] [] [] [] [] [] [] []]; vm_compute; intros H;
    try discriminate H; discriminate.
Qed.

Lemma hex_lower_not_bang (c : ascii) :
  JS.isRadixDigit 16 c = true -> "!"%char <> JS.lowerChar c.
Proof.
  destruct c as [[] [] [] [] [] [] [] []]; vm_compute; intros H;
    try discriminate H; discriminate.
Qed.

Ltac hex_clash :=
  exfalso;
  match goal with
  | E : "t"%char = JS.lowerChar ?c, Hc : JS.isRadixDigit 16 ?c = true |- _ =>
      exact (hex_lower_not_t c Hc E)
  | E : "i"%char = JS.lowerChar ?c, Hc : JS.isRadixDigit 16 ?c = true |- _ =>
      exact (hex_lower_not_i c Hc E)
  | E : "r"%char = JS.lowerChar ?c, Hc : JS.isRadixDigit 16 ?c = true |- _ =>
      exact (hex_lower_not_r c Hc E)
  | E : "!"%char = JS.lowerChar ?c, Hc : JS.isRadixDigit 16 ?c = true |- _ =>
      exact (hex_lower_not_bang c Hc E)
  end.

Ltac prefix_step :=
  rewrite prefix_cons;
  match goal with
  | |- context [ascii_dec ?a ?b] => destruct (ascii_dec a b); [|reflexivity]
  end.

(** A run of hexadecimal digits followed by a space starts with none of the
    four prefix markers, whatever comes after. *)
Lemma hash_blocks_prefixes (h m : string) :
  JS.allDigits 16 h = true ->
  String.prefix "feat:" (JS.toLowerCase (h ++ " " ++ m)) = false
  /\ String.prefix "feat(" (JS.toLowerCase (h ++ " " ++ m)) = false
  /\ String.prefix "fix:" (JS.toLowerCase (h ++ " " ++ m)) = false
  /\ String.prefix "fix(" (JS.toLowerCase (h ++ " " ++ m)) = false.
Proof.
  destruct h as [|c1 [|c2 [|c3 [|c4 r]]]]; intros H;
    cbn [JS.allDigits] in H; cbn [append JS.toLowerCase];
    repeat match type of H with
           | (_ && _ = true) => apply andb_true_iff in H; destruct H as [? H]
           end.
  - repeat split; reflexivity.
  - repeat split; prefix_step; reflexivity.
  - repeat split; prefix_step; prefix_step; try reflexivity; hex_clash.
  - repeat split; prefix_step; prefix_step; try hex_clash; prefix_step; reflexivity.
  - repeat split; prefix_step; prefix_step; try hex_clash; prefix_step; prefix_step;
      hex_clash.
Qed.

(** Nor with the breaking markers. *)
Lemma hash_blocks_breaking (h m : string) :
  JS.allDigits 16 h = true ->
  String.prefix "breaking change" (JS.toLowerCase (h ++ " " ++ m)) = false
  /\ String.prefix "!:" (JS.toLowerCase (h ++ " " ++ m)) = false.
Proof.
  destruct h as [|c1 [|c2 r]]; intros H;
    cbn [JS.allDigits] in H; cbn [append JS.toLowerCase];
    repeat match type of H with
           | (_ && _ = true) => apply andb_true_iff in H; destruct H as [? H]
           end.
  - split; reflexivity.
  - split; prefix_step; try hex_clash. reflexivity.
  - split; prefix_step; try hex_clash. prefix_step. hex_clash.
Qed.

(** A log line opens with the abbreviated hash, a run of hexadecimal digits,
    and a space: it starts with none of "feat:", "feat(", "fix:", "fix(". *)
Lemma oneline_no_marker_at_start (c : Git.Commit) :
  JS.allDigits 16 (Git.hash c) = true ->
  Rules.isFeature (Git.oneline c) = false /\ Rules.isFix (Git.oneline c) = false.
Proof.
  intros H. unfold Git.oneline, Rules.isFeature, Rules.isFix, JS.startsWith.
  destruct (hash_blocks_prefixes (Git.hash c) (Git.subject c) H) as (-> & -> & -> & ->).
  split; reflexivity.
Qed.

(** A marker that cannot start inside the hash is in the line exactly when
    it is in the message. *)
Lemma includes_past_hash (p h m : string) :
  (forall h', JS.allDigits 16 h' = true ->
              String.prefix p (JS.toLowerCase (h' ++ " " ++ m)) = false) ->
  JS.allDigits 16 h = true ->
  JS.includes p (JS.toLowerCase (h ++ " " ++ m)) = JS.includes p (JS.toLowerCase m).
Proof.
  intros B. induction h as [|c r IH]; intros H.
  - change (JS.includes p (JS.toLowerCase (EmptyString ++ " " ++ m)))
      with (String.prefix p (JS.toLowerCase (EmptyString ++ " " ++ m))
            || JS.includes p (JS.toLowerCase m)).
    rewrite (B EmptyString eq_refl). reflexivity.
  - change (JS.includes p (JS.toLowerCase (String c r ++ " " ++ m)))
      with (String.prefix p (JS.toLowerCase (String c r ++ " " ++ m))
            || JS.includes p (JS.toLowerCase (r ++ " " ++ m))).
    rewrite (B (String c r) H).
    cbn [JS.allDigits] in H. apply andb_true_iff in H. destruct H as [_ Hr].
    rewrite (IH Hr). reflexivity.
Qed.

Lemma logged_parts (c : Git.Commit) :
  logged c = true ->
  JS.allDigits 16 (Git.hash c) = true /\ JS.isAscii (Git.subject c) = true.
Proof.
  unfold logged. intros H.
  apply andb_true_iff in H. destruct H as [H A].
  apply andb_true_iff in H. destruct H as [_ D]. split; assumption.
Qed.

(** The conditions of both loops on the log line of a commit, in terms of
    its message. *)
Lemma line_tests (c : Git.Commit) :
  JS.allDigits 16 (Git.hash c) = true ->
  JS.includes "breaking change" (JS.toLowerCase (Git.oneline c))
  || JS.includes "!:" (JS.toLowerCase (Git.oneline c))
  = Spec.breaking (Git.subject c)
  /\ JS.includes "feat:" (JS.toLowerCase (Git.oneline c))
     || JS.includes "feat(" (JS.toLowerCase (Git.oneline c))
     = Spec.mentionsFeature (Git.subject c)
  /\ JS.includes "fix:" (JS.toLowerCase (Git.oneline c))
     || JS.includes "fix(" (JS.toLowerCase (Git.oneline c))
     = Spec.mentionsFix (Git.subject c).
Proof.
  intros H. unfold Git.oneline, Spec.breaking, Spec.mentionsFeature, Spec.mentionsFix.
  rewrite (includes_past_hash "breaking change" _ _
             (fun h' H' => proj1 (hash_blocks_breaking h' (Git.subject c) H')) H).
  rewrite (includes_past_hash "!:" _ _
             (fun h' H' => proj2 (hash_blocks_breaking h' (Git.subject c) H')) H).
  rewrite (includes_past_hash "feat:" _ _
             (fun h' H' => proj1 (hash_blocks_prefixes h' (Git.subject c) H')) H).
  rewrite (includes_past_hash "feat(" _ _
             (fun h' H' => proj1 (proj2 (hash_blocks_prefixes h' (Git.subject c) H'))) H).
  rewrite (includes_past_hash "fix:" _ _
             (fun h' H' => proj1 (proj2 (proj2 (hash_blocks_prefixes h' (Git.subject c) H')))) H).
  rewrite (includes_past_hash "fix(" _ _
             (fun h' H' => proj2 (proj2 (proj2 (hash_blocks_prefixes h' (Git.subject c) H')))) H).
  rewrite includes_bang_lower, (includes_contains "!:").
  rewrite !includes_lower by reflexivity.
  repeat split.
Qed.

End LogLines.

(* ================================================================== *)
(** * The Changelog Generator's buckets *)
(* ================================================================== *)

Section Categorize.

Import ChangelogGenerator.

Lemma categorize_fold (commits : list string) (acc : Categories) :
  fold_left categorizeStep commits acc = appendCategories acc (sortedBy bucket commits).
Proof.
  revert acc. induction commits as [|c r IH]; intros acc.
  - destruct acc. unfold appendCategories. simpl. rewrite !app_nil_r. reflexivity.
  - simpl fold_left. rewrite IH. unfold categorizeStep, sortedBy, appendCategories, bucket.
    cbn [filter breaking features fixes other].
    destruct (JS.includes "breaking change" (JS.toLowerCase c)
              || JS.includes "!:" (JS.toLowerCase c)).
    { cbn. rewrite <- app_assoc. reflexivity. }
    destruct (JS.includes "feat:" (JS.toLowerCase c)
              || JS.includes "feat(" (JS.toLowerCase c)).
    { cbn. rewrite <- app_assoc. reflexivity. }
    destruct (JS.includes "fix:" (JS.toLowerCase c)
              || JS.includes "fix(" (JS.toLowerCase c)).
    { cbn. rewrite <- app_assoc. reflexivity. }
    cbn. rewrite <- app_assoc. reflexivity.
Qed.

Lemma categorizeCommits_sortedBy (commits : list string) :
  categorizeCommits commits = sortedBy bucket commits.
Proof.
  unfold categorizeCommits. rewrite categorize_fold. reflexivity.
Qed.

(** The bucket of a log line is decided by the message behind the hash. *)
Lemma bucket_of_record (c : Git.Commit) :
  JS.allDigits 16 (Git.hash c) = true ->
  bucket (Git.oneline c) = Spec.classifyAnywhere (Git.subject c).
Proof.
  intros H. destruct (line_tests c H) as (B & F & X).
  unfold bucket, Spec.classifyAnywhere. rewrite B, F, X. reflexivity.
Qed.

Lemma filter_records (k : Rules.Kind) (history : list Git.Commit) :
  Forall (fun c => logged c = true) history ->
  filter (fun line => Rules.Kind_eqb (bucket line) k) (map Git.oneline history)
  = map Git.oneline
      (filter (fun c => Rules.Kind_eqb (Spec.classifyAnywhere (Git.subject c)) k) history).
Proof.
  induction 1 as [|c r Hc Hr IH]; [reflexivity|].
  cbn [map filter]. rewrite (bucket_of_record c (proj1 (logged_parts c Hc))), IH.
  destruct (Rules.Kind_eqb (Spec.classifyAnywhere (Git.subject c)) k); reflexivity.
Qed.

Lemma begins_contains (p s : string) :
  Spec.beginsCI p s = true -> Spec.containsCI p s = true.
Proof. intros H. destruct s; cbn [Spec.containsCI]; rewrite H; reflexivity. Qed.

Lemma feature_mentions (m : string) :
  Spec.feature m = true -> Spec.mentionsFeature m = true.
Proof.
  unfold Spec.feature, Spec.mentionsFeature. intros H.
  apply orb_true_iff in H. apply orb_true_iff.
  destruct H as [H|H]; [left|right]; apply begins_contains, H.
Qed.

Lemma bugfix_mentions (m : string) :
  Spec.bugfix m = true -> Spec.mentionsFix m = true.
Proof.
  unfold Spec.bugfix, Spec.mentionsFix. intros H.
  apply orb_true_iff in H. apply orb_true_iff.
  destruct H as [H|H]; [left|right]; apply begins_contains, H.
Qed.

(** C5, as amended.  For commit records as the log shows them (hexadecimal
    hash, message in ASCII), [categorizeCommits] puts every record into
    exactly one bucket, first match wins in the order breaking, features,
    fixes, other, where its breaking test is the Bumper's rule on the
    message and its feature and fix tests look for "feat:"/"feat(" and
    "fix:"/"fix(" anywhere in the message, whatever the case.  Against the
    rules of section 4.2: a record is in the breaking bucket exactly when
    the rules mark it breaking; a record the rules mark a feature is in the
    features bucket; a record they mark a fix is in the fixes bucket unless
    its message also holds a feature marker, which sends it to features; a
    record in the other bucket is one the rules mark other. *)
Theorem categorizeCommits_against_rules (history : list Git.Commit) :
  Forall (fun c => logged c = true) history ->
  categorizeCommits (map Git.oneline history) = sortedRecords Spec.classifyAnywhere history
  /\ forall c : Git.Commit,
       In c history ->
       (Spec.classifyAnywhere (Git.subject c) = Rules.Breaking
          <-> Spec.classify (Git.subject c) = Rules.Breaking)
       /\ (Spec.classify (Git.subject c) = Rules.Feature ->
             Spec.classifyAnywhere (Git.subject c) = Rules.Feature)
       /\ (Spec.classify (Git.subject c) = Rules.Fix ->
             Spec.classifyAnywhere (Git.subject c) = Rules.Fix
             \/ (Spec.classifyAnywhere (Git.subject c) = Rules.Feature
                 /\ Spec.mentionsFeature (Git.subject c) = true))
       /\ (Spec.classifyAnywhere (Git.subject c) = Rules.Other ->
             Spec.classify (Git.subject c) = Rules.Other).
Proof.
  intros H. split.
  - rewrite categorizeCommits_sortedBy. unfold sortedBy, sortedRecords.
    rewrite !(fun k => filter_records k history H). reflexivity.
  - intros c _.
    pose proof (feature_mentions (Git.subject c)) as Hfeat.
    pose proof (bugfix_mentions (Git.subject c)) as Hfix.
    unfold Spec.classifyAnywhere, Spec.classify.
    destruct (Spec.breaking (Git.subject c)).
    { repeat split; intros; try reflexivity; discriminate. }
    destruct (Spec.feature (Git.subject c)).
    { rewrite (Hfeat eq_refl). repeat split; intros; try reflexivity; discriminate. }
    destruct (Spec.mentionsFeature (Git.subject c)).
    { destruct (Spec.bugfix (Git.subject c)); repeat split; intros; try discriminate.
      right. split; reflexivity. }
    destruct (Spec.bugfix (Git.subject c)).
    { rewrite (Hfix eq_refl). repeat split; intros; try discriminate. left; reflexivity. }
    destruct (Spec.mentionsFix (Git.subject c));
      repeat split; intros; try discriminate; reflexivity.
Qed.

Lemma categorizeCommits_against_rules_witness :
  categorizeCommits
    ["c0d1e2f FEAT!: drop the old api"; "e4f5a6b feat: b"; "a1b2c3d fix: a";
     "b2c3d4e docs: readme"; "d4e5f6a fix: keep feat(x) working"]
  = {| breaking := ["c0d1e2f FEAT!: drop the old api"];
       features := ["e4f5a6b feat: b"; "d4e5f6a fix: keep feat(x) working"];
       fixes := ["a1b2c3d fix: a"];
       other := ["b2c3d4e docs: readme"] |}
  /\ (Spec.classifyAnywhere "fix: keep feat(x) working" = Rules.Fix
      \/ (Spec.classifyAnywhere "fix: keep feat(x) working" = Rules.Feature
          /\ Spec.mentionsFeature "fix: keep feat(x) working" = true)).
Proof.
  pose proof (categorizeCommits_against_rules
                [Samples.featBang; Samples.featB; Samples.fixA; Samples.docs;
                 Samples.fixAfterFeat]
                ltac:(repeat constructor)) as [E R].
  split.
  - exact E.
  - apply (R Samples.fixAfterFeat); [cbn; tauto | reflexivity].
Defined.

(** C5 as written fails: the record a1b2c3d "docs: explain the prefix:
    option" goes to the fixes bucket ("prefix:" holds "fix:") although none
    of the rules of section 4.2 marks its message. *)
Lemma categorizeCommits_not_the_rules :
  ~ (forall history : list Git.Commit,
       Forall (fun c => logged c = true) history ->
       categorizeCommits (map Git.oneline history) = sortedRecords Spec.classify history).
Proof.
  intros H. specialize (H [Samples.docsPrefix] ltac:(repeat constructor)).
  vm_compute in H. discriminate H.
Qed.

End Categorize.

(* ================================================================== *)
(** * Printing and reading back version numbers *)
(* ================================================================== *)

Section Decimal.

Import Decimal.

Lemma allDigits_of_uint (d : uint) :
  JS.allDigits 10 (NilEmpty.string_of_uint d) = true.
Proof. induction d; simpl; try rewrite IHd; reflexivity. Qed.

Lemma digit_plain (c : ascii) :
  JS.isRadixDigit 10 c = true ->
  JS.isWhiteSpace c = false
  /\ Ascii.eqb c "."%char = false
  /\ c <> "-"%char /\ c <> "+"%char.
Proof.
  destruct c as [[] [] [] [] [] [] [] []]; vm_compute; intros H;
    try discriminate H; repeat split; congruence.
Qed.

Ltac eval_digit :=
  match goal with
  | |- context [JS.digitValue ?c] =>
      let dv := eval vm_compute in (JS.digitValue c) in
      change (JS.digitValue c) with dv; cbv beta iota
  end.

Lemma digitsValue_acc (d : uint) (acc : positive) :
  JS.digitsValue 10 (Z.pos acc) (NilEmpty.string_of_uint d)
  = Z.pos (Pos.of_uint_acc d acc).
Proof.
  revert acc.
  induction d; intros acc;
    cbn [NilEmpty.string_of_uint JS.digitsValue Pos.of_uint_acc];
    try reflexivity;
    eval_digit; rewrite <- IHd; f_equal; lia.
Qed.

Lemma digitsValue_of_uint (d : uint) :
  JS.digitsValue 10 0 (NilEmpty.string_of_uint d) = Z.of_uint d.
Proof.
  unfold Z.of_uint.
  induction d; cbn [NilEmpty.string_of_uint JS.digitsValue Pos.of_uint];
    try reflexivity; eval_digit; try exact IHd;
    cbn [Z.of_N]; rewrite <- digitsValue_acc; reflexivity.
Qed.

(** A non-negative integer prints as a non-empty run of decimal digits that
    reads back as itself. *)
Lemma showZ_digits (z : Z) :
  (0 <= z)%Z ->
  JS.allDigits 10 (JS.showZ z) = true
  /\ JS.nonEmpty (JS.showZ z) = true
  /\ JS.digitsValue 10 0 (JS.showZ z) = z.
Proof.
  intros Hz. unfold JS.showZ.
  pose proof (DecimalZ.of_to z) as R.
  destruct z as [|p|p]; [| |lia].
  - repeat split.
  - cbn [Z.to_int NilEmpty.string_of_int] in *. cbn [Z.of_int] in R.
    split; [apply allDigits_of_uint|]. split.
    + pose proof (DecimalPos.Unsigned.to_uint_nonnil p) as N.
      destruct (Pos.to_uint p); [congruence| | | | | | | | | |]; reflexivity.
    + rewrite digitsValue_of_uint. exact R.
Qed.

End Decimal.

Section Doubles.

Local Open Scope Z_scope.

(** Up to 2^53 every non-negative integer is a double. *)
Lemma toDouble_exact (z : Z) : 0 <= z <= JS.safeLimit -> JS.toDouble z = z.
Proof.
  intros H. unfold JS.toDouble.
  destruct (Z.ltb_spec (Z.abs z) JS.safeLimit) as [L|G]; [reflexivity|].
  assert (E : z = JS.safeLimit) by (unfold JS.safeLimit in *; lia).
  subst z. vm_compute. reflexivity.
Qed.

Lemma toDouble_safe (z : Z) : safe z -> JS.toDouble z = z /\ JS.toDouble (z + 1) = z + 1.
Proof.
  unfold safe. intros H. split; apply toDouble_exact; lia.
Qed.

(** From 2^53 on a double is an even integer. *)
Lemma toDouble_even (z : Z) :
  JS.safeLimit <= z -> exists n, JS.toDouble z = 2 * n.
Proof.
  intros H.
  assert (Hz : 0 < z) by (unfold JS.safeLimit in H; lia).
  assert (K : 53 <= Z.log2 z).
  { change 53 with (Z.log2 JS.safeLimit). apply Z.log2_le_mono, H. }
  unfold JS.toDouble. rewrite (Z.abs_eq z) by lia.
  destruct (Z.ltb_spec z JS.safeLimit) as [L|_]; [lia|].
  rewrite (Z.sgn_pos z Hz). cbv zeta.
  assert (P : 2 ^ (Z.log2 z - 52) = 2 * 2 ^ (Z.log2 z - 52 - 1)).
  { rewrite <- Z.pow_succ_r by lia. f_equal. lia. }
  match goal with
  | |- exists n, 1 * (?q * _) = _ =>
      set (significand := q); exists (significand * 2 ^ (Z.log2 z - 52 - 1))
  end.
  rewrite P. ring.
Qed.

(** Rounding neither reaches nor leaves 15. *)
Lemma toDouble_15 (z : Z) : 0 <= z -> (JS.toDouble z = 15 <-> z = 15).
Proof.
  intros H. destruct (Z.lt_ge_cases z JS.safeLimit) as [L|G].
  - rewrite toDouble_exact by lia. reflexivity.
  - destruct (toDouble_even z G) as [n E]. rewrite E.
    unfold JS.safeLimit in G. split; lia.
Qed.

End Doubles.

Section TrimSplit.

Lemma trimStart_digits (s : string) :
  JS.allDigits 10 s = true -> JS.trimStart s = s.
Proof.
  destruct s as [|c r]; [reflexivity|]. cbn [JS.allDigits JS.trimStart]. intros H.
  apply andb_true_iff in H. destruct H as [Hc _].
  destruct (digit_plain c Hc) as [W _]. rewrite W. reflexivity.
Qed.

Lemma trimEnd_digits (s : string) :
  JS.allDigits 10 s = true -> JS.trimEnd s = s.
Proof.
  induction s as [|c r IH]; [reflexivity|]. cbn [JS.allDigits JS.trimEnd]. intros H.
  apply andb_true_iff in H. destruct H as [Hc Hr].
  rewrite (IH Hr). destruct (digit_plain c Hc) as [W _].
  destruct r; [rewrite W|]; reflexivity.
Qed.

Lemma trim_digits (s : string) :
  JS.allDigits 10 s = true -> JS.trim s = s.
Proof.
  intros H. unfold JS.trim. rewrite (trimStart_digits s H). apply trimEnd_digits, H.
Qed.

Lemma stripSign_digits (s : string) :
  JS.allDigits 10 s = true -> JS.stripSign s = (1%Z, s).
Proof.
  destruct s as [|c r]; [reflexivity|]. cbn [JS.allDigits]. intros H.
  apply andb_true_iff in H. destruct H as [Hc _].
  destruct (digit_plain c Hc) as (_ & _ & M & P).
  unfold JS.stripSign.
  destruct c as [[] [] [] [] [] [] [] []]; try reflexivity; congruence.
Qed.

(** [Number] reads a printed non-negative integer back, rounded. *)
Lemma StringToNumber_showZ (z : Z) :
  (0 <= z)%Z -> JS.StringToNumber (JS.showZ z) = JS.Num (JS.toDouble z).
Proof.
  intros Hz. destruct (showZ_digits z Hz) as (D & N & V).
  unfold JS.StringToNumber. rewrite (trim_digits _ D).
  destruct (JS.showZ z) as [|c r] eqn:E; [discriminate N|].
  rewrite (stripSign_digits _ D). rewrite N, D. cbn [andb].
  rewrite V, Z.mul_1_l. reflexivity.
Qed.

Lemma StringToNumber_safe (z : Z) :
  safe z -> JS.StringToNumber (JS.showZ z) = JS.Num z.
Proof.
  intros H. rewrite StringToNumber_showZ by (unfold safe in H; lia).
  rewrite (proj1 (toDouble_safe z H)). reflexivity.
Qed.

Lemma split_digits_dot (s t : string) :
  JS.allDigits 10 s = true ->
  JS.split "."%char (s ++ String "."%char t) = s :: JS.split "."%char t.
Proof.
  induction s as [|c r IH]; intros H.
  - reflexivity.
  - cbn [JS.allDigits] in H. apply andb_true_iff in H. destruct H as [Hc Hr].
    destruct (digit_plain c Hc) as (_ & E & _).
    cbn [append JS.split]. rewrite E, (IH Hr). reflexivity.
Qed.

Lemma split_digits (s : string) :
  JS.allDigits 10 s = true -> JS.split "."%char s = [s].
Proof.
  induction s as [|c r IH]; intros H.
  - reflexivity.
  - cbn [JS.allDigits] in H. apply andb_true_iff in H. destruct H as [Hc Hr].
    destruct (digit_plain c Hc) as (_ & E & _).
    cbn [JS.split]. rewrite E, (IH Hr). reflexivity.
Qed.

Lemma split_rendered (major minor patch : Z) :
  (0 <= major)%Z -> (0 <= minor)%Z -> (0 <= patch)%Z ->
  JS.split "."%char (renderVersion major minor patch)
  = [JS.showZ major; JS.showZ minor; JS.showZ patch].
Proof.
  intros H1 H2 H3. unfold renderVersion.
  destruct (showZ_digits major H1) as (D1 & _).
  destruct (showZ_digits minor H2) as (D2 & _).
  destruct (showZ_digits patch H3) as (D3 & _).
  change (JS.showZ major ++ "." ++ JS.showZ minor ++ "." ++ JS.showZ patch)
    with (JS.showZ major ++ String "."%char (JS.showZ minor ++ String "."%char (JS.showZ patch))).
  rewrite (split_digits_dot _ _ D1), (split_digits_dot _ _ D2), (split_digits _ D3).
  reflexivity.
Qed.

Lemma split_renderVersion (major minor patch : Z) :
  safe major -> safe minor -> safe patch ->
  map JS.StringToNumber (JS.split "."%char (renderVersion major minor patch))
  = [JS.Num major; JS.Num minor; JS.Num patch].
Proof.
  intros H1 H2 H3.
  rewrite split_rendered by (unfold safe in *; lia).
  cbn [map]. rewrite !StringToNumber_safe by assumption. reflexivity.
Qed.

Lemma showZ_inj (a b : Z) : (0 <= a)%Z -> (0 <= b)%Z -> JS.showZ a = JS.showZ b -> a = b.
Proof.
  intros Ha Hb E.
  destruct (showZ_digits a Ha) as (_ & _ & Va).
  destruct (showZ_digits b Hb) as (_ & _ & Vb).
  rewrite <- Va, <- Vb, E. reflexivity.
Qed.

Lemma renderVersion_inj (a b c a' b' c' : Z) :
  (0 <= a)%Z -> (0 <= b)%Z -> (0 <= c)%Z -> (0 <= a')%Z -> (0 <= b')%Z -> (0 <= c')%Z ->
  renderVersion a b c = renderVersion a' b' c' -> a = a' /\ b = b' /\ c = c'.
Proof.
  intros Ha Hb Hc Ha' Hb' Hc' E.
  pose proof (split_rendered a b c Ha Hb Hc) as S1.
  pose proof (split_rendered a' b' c' Ha' Hb' Hc') as S2.
  rewrite E in S1. rewrite S1 in S2. injection S2 as E1 E2 E3.
  repeat split; apply showZ_inj; assumption.
Qed.

Lemma takeDigits_all (s : string) :
  JS.allDigits 10 s = true -> JS.takeDigits 10 s = s.
Proof.
  induction s as [|c r IH]; [reflexivity|]. cbn [JS.allDigits JS.takeDigits].
  intros H. apply andb_true_iff in H. destruct H as [Hc Hr].
  rewrite Hc, (IH Hr). reflexivity.
Qed.

Lemma digit_not_x (c : ascii) :
  JS.isRadixDigit 10 c = true -> c <> "x"%char /\ c <> "X"%char.
Proof.
  destruct c as [[] [] [] [] [] [] [] []]; vm_compute; intros H;
    try discriminate H; split; discriminate.
Qed.

Lemma stripHexPrefix_digits (s : string) :
  JS.allDigits 10 s = true -> JS.stripHexPrefix s = (10%Z, s).
Proof.
  destruct s as [|c1 [|c2 r]]; intros H.
  - reflexivity.
  - unfold JS.stripHexPrefix. destruct c1 as [[] [] [] [] [] [] [] []]; reflexivity.
  - cbn [JS.allDigits] in H.
    apply andb_true_iff in H. destruct H as [_ H].
    apply andb_true_iff in H. destruct H as [H2 _].
    destruct (digit_not_x c2 H2) as [Nx NX].
    unfold JS.stripHexPrefix.
    destruct c1 as [[] [] [] [] [] [] [] []]; try reflexivity.
    destruct c2 as [[] [] [] [] [] [] [] []]; try reflexivity; congruence.
Qed.

(** [parseInt] reads a printed non-negative integer back, rounded. *)
Lemma parseInt_showZ (z : Z) :
  (0 <= z)%Z -> JS.parseInt (JS.showZ z) = JS.Num (JS.toDouble z).
Proof.
  intros Hz. destruct (showZ_digits z Hz) as (D & N & V).
  unfold JS.parseInt.
  rewrite (trimStart_digits _ D), (stripSign_digits _ D), (stripHexPrefix_digits _ D).
  rewrite (takeDigits_all _ D).
  destruct (JS.showZ z) as [|c r]; [discriminate N|].
  rewrite V, Z.mul_1_l. reflexivity.
Qed.

Lemma or_zero (z : Z) : JS.or (JS.Num z) (JS.Num 0) = JS.Num z.
Proof.
  unfold JS.or, JS.truthy. destruct (Z.eqb_spec z 0) as [->|]; reflexivity.
Qed.

(** What the Resolver reads in a version [major.minor.patch]. *)
Lemma resolver_reads (major minor patch : Z) :
  (0 <= major)%Z -> (0 <= minor)%Z -> (0 <= patch)%Z ->
  VersionHelper.currentMajor (renderVersion major minor patch) = JS.Num (JS.toDouble major)
  /\ VersionHelper.currentMinor (renderVersion major minor patch) = JS.Num (JS.toDouble minor)
  /\ VersionHelper.currentPatch (renderVersion major minor patch) = JS.Num (JS.toDouble patch).
Proof.
  intros H1 H2 H3.
  unfold VersionHelper.currentMajor, VersionHelper.currentMinor, VersionHelper.currentPatch,
    VersionHelper.part.
  rewrite (split_rendered major minor patch H1 H2 H3). cbn [nth].
  rewrite !parseInt_showZ, !or_zero by assumption. repeat split.
Qed.

(** The major it reads is 15 exactly when the version says 15. *)
Lemma resolver_major_15 (major minor patch : Z) :
  (0 <= major)%Z -> (0 <= minor)%Z -> (0 <= patch)%Z ->
  VersionHelper.currentMajor (renderVersion major minor patch) = JS.Num 15 <-> major = 15%Z.
Proof.
  intros H1 H2 H3. destruct (resolver_reads major minor patch H1 H2 H3) as (-> & _).
  rewrite <- (toDouble_15 major H1). split; [intros [= E]; exact E | intros ->; reflexivity].
Qed.

End TrimSplit.

(* ================================================================== *)
(** * The Bumper's new version *)
(* ================================================================== *)

Section NewVersion.

Import SafeVersionBump.

Local Open Scope Z_scope.

(** C2, as amended.  For a current version [major.minor.patch] whose
    numbers are below 2^53 and a policy [{maxMajor, defaultMinor}] of
    integers a double holds, [calculateNewVersion] gives
    [maxMajor.defaultMinor.0] when [major] is above [maxMajor], gives
    [maxMajor.defaultMinor.patch] when it is below (whatever the bump), and
    at [maxMajor] gives [major.(minor+1).0] for "minor" and
    [major.minor.(patch+1)] for "patch". *)
Theorem calculateNewVersion_cases
    (major minor patch : Z) (bumpType : string) (constraints : Constraints) :
  safe major -> safe minor -> safe patch -> safePolicy constraints ->
  (maxMajor constraints < major ->
     calculateNewVersion (renderVersion major minor patch) bumpType constraints
     = renderVersion (maxMajor constraints) (defaultMinor constraints) 0)
  /\ (major < maxMajor constraints ->
     calculateNewVersion (renderVersion major minor patch) bumpType constraints
     = renderVersion (maxMajor constraints) (defaultMinor constraints) patch)
  /\ (major = maxMajor constraints ->
     calculateNewVersion (renderVersion major minor patch) "minor" constraints
     = renderVersion major (minor + 1) 0
     /\ calculateNewVersion (renderVersion major minor patch) "patch" constraints
     = renderVersion major minor (patch + 1)).
Proof.
  intros H1 H2 H3 _.
  unfold calculateNewVersion.
  rewrite (split_renderVersion major minor patch H1 H2 H3).
  cbn [nth_error JS.gt JS.lt JS.succ JS.showValue JS.showNumber].
  rewrite (proj2 (toDouble_safe minor H2)), (proj2 (toDouble_safe patch H3)).
  repeat split.
  - intros Hgt. apply Z.ltb_lt in Hgt. rewrite Hgt. reflexivity.
  - intros Hlt.
    assert (G : (maxMajor constraints <? major) = false) by (apply Z.ltb_ge; lia).
    apply Z.ltb_lt in Hlt. rewrite G, Hlt. reflexivity.
  - subst major. rewrite Z.ltb_irrefl. reflexivity.
  - subst major. rewrite Z.ltb_irrefl. reflexivity.
Qed.

Lemma calculateNewVersion_cases_witness :
  calculateNewVersion "16.4.5" "patch" {| maxMajor := 15; defaultMinor := 2 |} = "15.2.0"
  /\ calculateNewVersion "14.0.5" "minor" {| maxMajor := 15; defaultMinor := 2 |} = "15.2.5"
  /\ calculateNewVersion "15.2.5" "minor" {| maxMajor := 15; defaultMinor := 2 |} = "15.3.0"
  /\ calculateNewVersion "15.2.5" "patch" {| maxMajor := 15; defaultMinor := 2 |} = "15.2.6".
Proof.
  assert (P : safePolicy {| maxMajor := 15; defaultMinor := 2 |})
    by (unfold safePolicy, JS.safeLimit; cbn; lia).
  assert (S : forall z, 0 <= z < 100 -> safe z)
    by (unfold safe, JS.safeLimit; intros; lia).
  split; [|split].
  - apply (proj1 (calculateNewVersion_cases 16 4 5 "patch"
             {| maxMajor := 15; defaultMinor := 2 |}
             (S 16 ltac:(lia)) (S 4 ltac:(lia)) (S 5 ltac:(lia)) P)).
    simpl; lia.
  - apply (proj1 (proj2 (calculateNewVersion_cases 14 0 5 "minor"
             {| maxMajor := 15; defaultMinor := 2 |}
             (S 14 ltac:(lia)) (S 0 ltac:(lia)) (S 5 ltac:(lia)) P))).
    simpl; lia.
  - apply (proj2 (proj2 (calculateNewVersion_cases 15 2 5 "minor"
             {| maxMajor := 15; defaultMinor := 2 |}
             (S 15 ltac:(lia)) (S 2 ltac:(lia)) (S 5 ltac:(lia)) P))).
    reflexivity.
Defined.

(** C2 as written fails: version numbers are doubles.  At 15.2.2^53 a
    "patch" bump adds 1 to 9007199254740992, which rounds back to
    9007199254740992: the version comes out unchanged. *)
Lemma calculateNewVersion_rounds :
  ~ (forall (major minor patch : Z) (constraints : Constraints),
       0 <= major -> 0 <= minor -> 0 <= patch ->
       major = maxMajor constraints ->
       calculateNewVersion (renderVersion major minor patch) "patch" constraints
       = renderVersion major minor (patch + 1)).
Proof.
  intros H.
  specialize (H 15 2 9007199254740992 {| maxMajor := 15; defaultMinor := 2 |}
                ltac:(lia) ltac:(lia) ltac:(lia) eq_refl).
  vm_compute in H. discriminate H.
Qed.

End NewVersion.

(* ================================================================== *)
(** * The Resolver: update and validate *)
(* ================================================================== *)

Section Resolver.

Import VersionHelper.

Lemma getCurrentBranch_pure (w w' : World) (b : string) :
  getCurrentBranch w = Returned b w' -> w' = w.
Proof.
  unfold getCurrentBranch. destruct (Git.run Git.RevParseHead (repo w)); congruence.
Qed.

Lemma differs_spec (x : JS.number) (n : Z) :
  differs x n = true <-> x <> JS.Num n.
Proof.
  destruct x as [|a]; simpl.
  - split; [discriminate | reflexivity].
  - rewrite negb_true_iff, Z.eqb_neq. split; congruence.
Qed.

Lemma differs_false (x : JS.number) (n : Z) :
  differs x n = false <-> x = JS.Num n.
Proof.
  destruct x as [|a]; simpl.
  - split; discriminate.
  - rewrite negb_false_iff, Z.eqb_eq. split; congruence.
Qed.

(** A version that already reads "15.2.…" has major 15. *)
Lemma currentMajor_adjusted (rest : string) :
  currentMajor ("15.2." ++ rest) = JS.Num 15.
Proof.
  unfold currentMajor, part. cbn [append JS.split Ascii.eqb Bool.eqb].
  destruct (JS.split "."%char rest); reflexivity.
Qed.

Lemma adjusted_is_new (v : string) :
  currentMajor v <> JS.Num 15 ->
  String.eqb (JS.showZ 15 ++ ".2." ++ JS.showNumber (currentPatch v)) v = false.
Proof.
  intros H. apply String.eqb_neq. intros E. apply H. rewrite <- E.
  apply currentMajor_adjusted.
Qed.

(** On "main" with a major other than 15, both manifests are rewritten. *)
Lemma update_on_main_adjusts (w : World) :
  getCurrentBranch w = Returned "main" w ->
  currentMajor (version (rootPackage w)) <> JS.Num 15 ->
  updatePackageVersion w =
    Returned tt
      (withVersion ("15.2." ++ JS.showNumber (currentPatch (version (rootPackage w)))) w).
Proof.
  intros Hb Hm. unfold updatePackageVersion, bind, getWorld. rewrite Hb.
  cbn [String.eqb Ascii.eqb Bool.eqb].
  rewrite (proj2 (differs_spec _ 15) Hm).
  rewrite (adjusted_is_new _ Hm). cbn [negb].
  unfold modify, withSuffix, writeRoot, writeLib, withVersion, ret. cbn.
  destruct (libPackage w); reflexivity.
Qed.

(** On "main" with a major other than 15, validation ends the process. *)
Lemma validate_on_main_rejects (w : World) :
  getCurrentBranch w = Returned "main" w ->
  currentMajor (version (rootPackage w)) <> JS.Num 15 ->
  validateVersionForBranch w = Exited 1 w.
Proof.
  intros Hb Hm.
  unfold validateVersionForBranch, getCurrentVersionFromPackage, bind, getWorld, ret.
  rewrite Hb. cbn [String.eqb Ascii.eqb Bool.eqb andb].
  rewrite (proj2 (differs_spec _ 15) Hm). reflexivity.
Qed.

Lemma update_on_main_keeps (w : World) :
  getCurrentBranch w = Returned "main" w ->
  currentMajor (version (rootPackage w)) = JS.Num 15 ->
  updatePackageVersion w = Returned tt w.
Proof.
  intros Hb Hm. unfold updatePackageVersion, bind, getWorld. rewrite Hb.
  cbn [String.eqb Ascii.eqb Bool.eqb].
  rewrite (proj2 (differs_false _ 15) Hm), String.eqb_refl. reflexivity.
Qed.

Lemma update_off_main (w : World) (b : string) :
  getCurrentBranch w = Returned b w -> b <> "main" ->
  updatePackageVersion w = Returned tt w.
Proof.
  intros Hb Hn. unfold updatePackageVersion, bind, getWorld. rewrite Hb.
  apply String.eqb_neq in Hn. rewrite Hn. reflexivity.
Qed.

Lemma validate_passes (w : World) (b : string) :
  getCurrentBranch w = Returned b w ->
  b <> "main" \/ currentMajor (version (rootPackage w)) = JS.Num 15 ->
  validateVersionForBranch w = Returned tt w.
Proof.
  intros Hb H.
  unfold validateVersionForBranch, getCurrentVersionFromPackage, bind, getWorld, ret.
  rewrite Hb. destruct H as [Hn|Hm].
  - apply String.eqb_neq in Hn. rewrite Hn. reflexivity.
  - rewrite (proj2 (differs_false _ 15) Hm), andb_false_r. reflexivity.
Qed.

Local Open Scope Z_scope.

(** C6, as amended.  The branch is the one git reports, a name in ASCII.
    On branch "main", a manifest at version [major.minor.patch] with [patch]
    below 2^53 and a major other than 15 is rewritten to [15.2.patch], in
    the root manifest and in the library manifest when there is one; a
    manifest whose major is 15, and any manifest on another branch, is left
    as it is. *)
Theorem updatePackageVersion_effect (w : World) (b : string) :
  getCurrentBranch w = Returned b w ->
  JS.isAscii b = true ->
  (b = "main" ->
   forall major minor patch : Z,
     0 <= major -> 0 <= minor -> safe patch ->
     version (rootPackage w) = renderVersion major minor patch ->
     (major <> 15 ->
        updatePackageVersion w = Returned tt (withVersion (renderVersion 15 2 patch) w))
     /\ (major = 15 -> updatePackageVersion w = Returned tt w))
  /\ (b <> "main" -> updatePackageVersion w = Returned tt w).
Proof.
  intros Hb _. split.
  - intros -> major minor patch H1 H2 H3 Hv.
    assert (P0 : 0 <= patch) by (unfold safe in H3; lia).
    pose proof (resolver_major_15 major minor patch H1 H2 P0) as M.
    destruct (resolver_reads major minor patch H1 H2 P0) as (_ & _ & P).
    rewrite (proj1 (toDouble_safe patch H3)) in P.
    rewrite <- Hv in M, P. split.
    + intros N. rewrite (update_on_main_adjusts w Hb).
      * rewrite P. reflexivity.
      * intros E. apply N, M, E.
    + intros E. apply (update_on_main_keeps w Hb). apply M, E.
  - intros Hn. apply (update_off_main w b Hb Hn).
Qed.

(** C6 as written fails: the patch number is read as a double.  From
    14.0.9007199254740993 the version written is 15.2.9007199254740992. *)
Lemma update_rounds_the_patch :
  ~ (forall (w : World) (major minor patch : Z),
       getCurrentBranch w = Returned "main" w ->
       0 <= major -> 0 <= minor -> 0 <= patch ->
       version (rootPackage w) = renderVersion major minor patch ->
       major <> 15 ->
       updatePackageVersion w = Returned tt (withVersion (renderVersion 15 2 patch) w)).
Proof.
  intros H.
  specialize (H (Samples.world "main" [Samples.release] "14.0.9007199254740993")
                14 0 9007199254740993 eq_refl
                ltac:(lia) ltac:(lia) ltac:(lia) eq_refl ltac:(lia)).
  vm_compute in H. discriminate H.
Qed.


End Resolver.

Section ResolverWitnesses.

Import VersionHelper.

Local Open Scope Z_scope.

Lemma updatePackageVersion_effect_witness :
  updatePackageVersion (Samples.world "main" [Samples.release] "14.0.5")
    = Returned tt (withVersion "15.2.5" (Samples.world "main" [Samples.release] "14.0.5"))
  /\ updatePackageVersion Samples.quiet = Returned tt Samples.quiet
  /\ updatePackageVersion (Samples.world "release-x" [Samples.release] "14.0.5")
     = Returned tt (Samples.world "release-x" [Samples.release] "14.0.5").
Proof.
  assert (S : safe 5) by (unfold safe, JS.safeLimit; lia).
  split; [|split].
  - apply (proj1 (proj1 (updatePackageVersion_effect
                    (Samples.world "main" [Samples.release] "14.0.5") "main"
                    eq_refl eq_refl)
                    eq_refl 14 0 5 ltac:(lia) ltac:(lia) S eq_refl)).
    lia.
  - apply (proj2 (proj1 (updatePackageVersion_effect Samples.quiet "main" eq_refl eq_refl)
                    eq_refl 15 2 5 ltac:(lia) ltac:(lia) S eq_refl)).
    reflexivity.
  - apply (proj2 (updatePackageVersion_effect
                    (Samples.world "release-x" [Samples.release] "14.0.5")
                    "release-x" eq_refl eq_refl)).
    discriminate.
Defined.


End ResolverWitnesses.

(* ================================================================== *)
(** * The Bumper's run *)
(* ================================================================== *)

Section Bumper.

Import SafeVersionBump.

Lemma runCommand_pure (c : Git.Command) (w : World) :
  exists out, runCommand c w = Returned out w.
Proof.
  unfold runCommand. destruct (Git.run c (repo w)); eexists; reflexivity.
Qed.

(** Collecting commits always comes back, with the world as it was. *)
Lemma getCommitsSinceLastTag_returns (w : World) :
  exists commits, getCommitsSinceLastTag w = Returned commits w.
Proof.
  unfold getCommitsSinceLastTag, bind, ret.
  destruct (runCommand_pure Git.DescribeOrEmpty w) as [t ->].
  match goal with
  | |- context [runCommand ?c w] => destruct (runCommand_pure c w) as [o ->]
  end.
  eexists; reflexivity.
Qed.

(** When the log query fails, the result is the empty list. *)
Lemma getCommitsSinceLastTag_on_failure (w : World) :
  Git.history (repo w) = [] -> getCommitsSinceLastTag w = Returned [] w.
Proof.
  intros H. unfold getCommitsSinceLastTag, bind, ret, runCommand.
  cbn [Git.run]. rewrite H. cbn [Git.lastTag].
  change (JS.trim JS.newline) with EmptyString.
  cbn [JS.nonEmpty Git.run]. rewrite H. reflexivity.
Qed.

(** C8. With a policy for the branch and no commit since the last tag, the
    bump leaves the world, so both manifests, as it found it and the process
    ends with status 0, whatever the current version. *)
Theorem bump_without_commits (w : World) (b : string) (constraints : Constraints) :
  getCurrentBranch w = Returned b w ->
  getVersionConstraints b = Some constraints ->
  getCommitsSinceLastTag w = Returned [] w ->
  exitStatus (main (Some "bump") w) = 0%Z
  /\ finalWorld (main (Some "bump") w) = w.
Proof.
  intros Hb Hc Hl.
  change (main (Some "bump")) with safeBumpVersion.
  unfold safeBumpVersion, bind, getWorld. rewrite Hb, Hc, Hl.
  split; reflexivity.
Qed.

Lemma bump_without_commits_witness :
  exitStatus (main (Some "bump") Samples.quiet) = 0%Z
  /\ finalWorld (main (Some "bump") Samples.quiet) = Samples.quiet.
Proof.
  apply (bump_without_commits Samples.quiet "main" {| maxMajor := 15; defaultMinor := 2 |});
    reflexivity.
Defined.

Lemma no_feature_on_log_lines (history : list Git.Commit) :
  Forall (fun c => logged c = true) history ->
  existsb Rules.isFeature (map Git.oneline history) = false.
Proof.
  induction 1 as [|c r Hc Hr IH]; [reflexivity|].
  cbn [map existsb]. rewrite IH.
  destruct (oneline_no_marker_at_start c (proj1 (logged_parts c Hc))) as [-> _].
  reflexivity.
Qed.

Lemma breaking_on_log_lines (history : list Git.Commit) :
  Forall (fun c => logged c = true) history ->
  existsb Rules.isBreaking (map Git.oneline history)
  = existsb (fun c => Spec.breaking (Git.subject c)) history.
Proof.
  induction 1 as [|c r Hc Hr IH]; [reflexivity|].
  cbn [map existsb]. rewrite IH. f_equal.
  destruct (line_tests c (proj1 (logged_parts c Hc))) as (<- & _).
  unfold Rules.isBreaking. rewrite includes_bang_lower. reflexivity.
Qed.

(** X18. On the log lines of commit records (hexadecimal hash, message in
    ASCII) only a breaking marker in a message can raise the bump: the
    result is "minor" exactly when the message of some record holds
    "breaking change", whatever the case, or "!:", and "patch" otherwise,
    whatever "feat:" or "fix:" prefixes the messages carry. *)
Lemma analyzeCommits_on_log_lines (history : list Git.Commit) :
  Forall (fun c => logged c = true) history ->
  analyzeCommits (map Git.oneline history)
  = if existsb (fun c => Spec.breaking (Git.subject c)) history then "minor" else "patch".
Proof.
  intros H. rewrite analyzeCommits_flags.
  rewrite (no_feature_on_log_lines history H), (breaking_on_log_lines history H), orb_false_r.
  reflexivity.
Qed.

(** C3, what the code does.  On "main" at 15.2.5 with the commits "fix: a"
    and "feat: b" since the last tag, the log lines start with the
    abbreviated hash, so neither line starts with "feat:" or "fix:": the
    bump is "patch" and both manifests get 15.2.6, not 15.3.0. *)
Theorem bump_fix_then_feat :
  getCommitsSinceLastTag Samples.fixThenFeat
    = Returned ["e4f5a6b feat: b"; "a1b2c3d fix: a"] Samples.fixThenFeat
  /\ analyzeCommits ["e4f5a6b feat: b"; "a1b2c3d fix: a"] = "patch"
  /\ main (Some "bump") Samples.fixThenFeat
     = Returned tt (withVersion "15.2.6" Samples.fixThenFeat).
Proof. repeat split. Qed.

(** C4, what the code does.  The Bumper's log command has no [--no-merges]:
    a merge commit made since the last tag is part of its listing, while the
    Changelog Generator, on the same repository, leaves it out. *)
Theorem bumper_lists_merge_commits :
  getCommitsSinceLastTag Samples.merged
    = Returned ["9f8e7d6 Merge branch 'feature/x'"; "e4f5a6b feat: b"] Samples.merged
  /\ ChangelogGenerator.getCommitsSinceLastTag Samples.merged
     = Returned {| ChangelogGenerator.commits := ["e4f5a6b feat: b"];
                   ChangelogGenerator.lastTag := Some "main-v15.2.5" |} Samples.merged.
Proof. split; reflexivity. Qed.

End Bumper.

(* ================================================================== *)
(** * Reading a changelog *)
(* ================================================================== *)

Section Lines.

Variable sep : ascii.

Lemma split_nonempty (s : string) : JS.split sep s <> [].
Proof.
  destruct s as [|c r]; cbn [JS.split]; [discriminate|].
  destruct (Ascii.eqb c sep); [discriminate|].
  destruct (JS.split sep r); discriminate.
Qed.

Lemma split_app_sep (s t : string) :
  JS.split sep (s ++ String sep t) = (JS.split sep s ++ JS.split sep t)%list.
Proof.
  induction s as [|c r IH].
  - cbn [append JS.split]. rewrite Ascii.eqb_refl. reflexivity.
  - cbn [append JS.split]. destruct (Ascii.eqb c sep).
    + rewrite IH. reflexivity.
    + rewrite IH. pose proof (split_nonempty r) as N.
      destruct (JS.split sep r) as [|h tl]; [congruence|]. reflexivity.
Qed.

Lemma split_join (l : list string) :
  l <> [] ->
  JS.split sep (JS.join (String sep EmptyString) l)
  = List.concat (map (JS.split sep) l).
Proof.
  unfold JS.join.
  induction l as [|x r IH]; intros N; [congruence|].
  destruct r as [|y r'].
  - cbn. rewrite app_nil_r. reflexivity.
  - change (String.concat (String sep EmptyString) (x :: y :: r'))
      with (x ++ String sep (String.concat (String sep EmptyString) (y :: r'))).
    rewrite split_app_sep, IH by discriminate. reflexivity.
Qed.

(** A piece of a split holds no separator: splitting it again gives it back. *)
Lemma split_pieces (s : string) :
  Forall (fun l => JS.split sep l = [l]) (JS.split sep s).
Proof.
  induction s as [|c r IH]; cbn [JS.split].
  - constructor; [reflexivity | constructor].
  - destruct (Ascii.eqb c sep) eqn:E.
    + constructor; [reflexivity | exact IH].
    + pose proof (split_nonempty r) as N.
      destruct (JS.split sep r) as [|h tl]; [congruence|].
      inversion IH as [|? ? Hh Ht]; subst.
      constructor; [|exact Ht].
      cbn [JS.split]. rewrite E, Hh. reflexivity.
Qed.

Lemma concat_split_pieces (l : list string) :
  Forall (fun x => JS.split sep x = [x]) l ->
  List.concat (map (JS.split sep) l) = l.
Proof.
  induction 1 as [|x r Hx Hr IH]; [reflexivity|].
  cbn [map List.concat]. rewrite Hx, IH. reflexivity.
Qed.

End Lines.

(* ================================================================== *)
(** * Inserting a changelog entry *)
(* ================================================================== *)

Section Insertion.

Import ChangelogGenerator.

Local Open Scope Z_scope.

Lemma findIndex_range {A : Type} (p : A -> bool) (l : list A) :
  -1 <= JS.findIndex p l < Z.of_nat (List.length l).
Proof.
  induction l as [|x r IH]; cbn [JS.findIndex List.length].
  - lia.
  - destruct (p x); [lia|].
    destruct (Z.eqb_spec (JS.findIndex p r) (-1)); lia.
Qed.

Lemma header_entries_app (lines : list string) :
  (headerBlock lines ++ entriesOf lines)%list = lines.
Proof.
  induction lines as [|l r IH]; cbn [headerBlock entriesOf]; [reflexivity|].
  destruct (isEntryLine l); [reflexivity|]. cbn [app]. rewrite IH. reflexivity.
Qed.

Lemma findIndex_none (lines : list string) :
  JS.findIndex isEntryLine lines = -1 ->
  headerBlock lines = lines /\ entriesOf lines = [].
Proof.
  induction lines as [|l r IH]; cbn [JS.findIndex headerBlock entriesOf]; [easy|].
  destruct (isEntryLine l); [discriminate|].
  pose proof (findIndex_range isEntryLine r) as R.
  destruct (Z.eqb_spec (JS.findIndex isEntryLine r) (-1)) as [E|E]; [|lia].
  intros _. destruct (IH E) as [-> ->]. easy.
Qed.

Lemma findIndex_some (lines : list string) :
  JS.findIndex isEntryLine lines <> -1 ->
  JS.sliceTo (JS.findIndex isEntryLine lines) lines = headerBlock lines
  /\ JS.sliceFrom (JS.findIndex isEntryLine lines) lines = entriesOf lines.
Proof.
  unfold JS.sliceTo, JS.sliceFrom.
  induction lines as [|l r IH]; cbn [JS.findIndex headerBlock entriesOf]; [easy|].
  destruct (isEntryLine l); [easy|].
  pose proof (findIndex_range isEntryLine r) as R.
  destruct (Z.eqb_spec (JS.findIndex isEntryLine r) (-1)) as [E|E]; [easy|].
  intros _. destruct (IH E) as [H1 H2].
  replace (Z.to_nat (JS.findIndex isEntryLine r + 1))
    with (S (Z.to_nat (JS.findIndex isEntryLine r))) by lia.
  cbn [firstn skipn]. rewrite H1, H2. easy.
Qed.

Lemma headerBlock_clean (lines : list string) :
  forallb (fun l => negb (isEntryLine l)) (headerBlock lines) = true.
Proof.
  induction lines as [|l r IH]; cbn [headerBlock]; [reflexivity|].
  destruct (isEntryLine l) eqn:E; [reflexivity|].
  cbn [forallb]. rewrite E, IH. reflexivity.
Qed.

(** A clean block followed by lines that open with an entry heading. *)
Lemma header_app (above below : list string) (b : string) (rest : list string) :
  forallb (fun l => negb (isEntryLine l)) above = true ->
  below = b :: rest -> isEntryLine b = true ->
  headerBlock (above ++ below) = above
  /\ entriesOf (above ++ below) = below
  /\ JS.findIndex isEntryLine (above ++ below) = Z.of_nat (List.length above).
Proof.
  intros Ha -> Hb.
  induction above as [|l r IH]; cbn [app headerBlock entriesOf JS.findIndex List.length].
  - rewrite Hb. easy.
  - cbn [forallb] in Ha. apply andb_true_iff in Ha. destruct Ha as [Hl Hr].
    apply negb_true_iff in Hl. rewrite Hl.
    destruct (IH Hr) as (H1 & H2 & H3). rewrite H1, H2, H3.
    destruct (Z.eqb_spec (Z.of_nat (List.length r)) (-1)); [lia|].
    repeat split. lia.
Qed.

Lemma entry_first_line (s : string) :
  isEntryLine s = true ->
  exists b rest, linesOf s = b :: rest /\ isEntryLine b = true.
Proof.
  unfold isEntryLine, JS.startsWith, linesOf.
  destruct s as [|c1 [|c2 [|c3 [|c4 r]]]];
    rewrite ?prefix_cons, ?prefix_nil;
    repeat match goal with
      | |- context [ascii_dec ?a ?b] => destruct (ascii_dec a b); [subst|discriminate]
      end;
    try discriminate.
  intros _. pose proof (split_nonempty JS.LF r) as N.
  cbn [JS.split].
  change (Ascii.eqb "#" JS.LF) with false.
  change (Ascii.eqb " " JS.LF) with false.
  change (Ascii.eqb "[" JS.LF) with false.
  cbv iota.
  destruct (JS.split JS.LF r) as [|h tl]; [congruence|].
  eexists; eexists; split; [reflexivity|].
  rewrite !prefix_cons, prefix_nil.
  repeat match goal with
    | |- context [ascii_dec ?a ?b] => destruct (ascii_dec a b); [|congruence]
    end.
  reflexivity.
Qed.

Lemma pieces_firstn_skipn (n : nat) (content : string) :
  List.concat (map (JS.split JS.LF) (firstn n (linesOf content))) = firstn n (linesOf content)
  /\ List.concat (map (JS.split JS.LF) (skipn n (linesOf content))) = skipn n (linesOf content).
Proof.
  pose proof (split_pieces JS.LF content) as P. fold (linesOf content) in P.
  rewrite <- (firstn_skipn n (linesOf content)) in P.
  apply Forall_app in P. destruct P as [P1 P2].
  split; apply concat_split_pieces; assumption.
Qed.

(** The lines written when the document has an entry below its first line. *)
Lemma insertEntry_before_first (content newEntry : string) :
  0 < JS.findIndex isEntryLine (linesOf content) ->
  linesOf (insertEntry content newEntry)
  = (headerBlock (linesOf content) ++ linesOf (JS.trim newEntry)
     ++ [EmptyString] ++ entriesOf (linesOf content))%list.
Proof.
  intros Hi. unfold insertEntry. fold (linesOf content).
  pose proof (findIndex_range isEntryLine (linesOf content)) as R.
  unfold JS.orElse.
  destruct (Z.eqb_spec (JS.findIndex isEntryLine (linesOf content)) 0) as [E|_]; [lia|].
  destruct (Z.eqb_spec (JS.findIndex isEntryLine (linesOf content)) (-1)) as [E|_]; [lia|].
  destruct (Z.eqb_spec (JS.findIndex isEntryLine (linesOf content))
              (Z.of_nat (List.length (linesOf content)))) as [E|_]; [lia|].
  cbn [orb].
  unfold linesOf at 1. unfold JS.newline, JS.LF at 1.
  rewrite split_join by (destruct (JS.sliceTo _ _); discriminate).
  rewrite !map_app, !concat_app.
  unfold JS.sliceTo, JS.sliceFrom.
  destruct (pieces_firstn_skipn
              (Z.to_nat (JS.findIndex isEntryLine (linesOf content))) content) as [P1 P2].
  fold JS.LF. rewrite P1, P2.
  assert (N : JS.findIndex isEntryLine (linesOf content) <> -1) by lia.
  destruct (findIndex_some _ N) as [H1 H2]. unfold JS.sliceTo, JS.sliceFrom in H1, H2.
  rewrite H1, H2. cbn [map List.concat JS.split app]. rewrite ?app_nil_r, <- ?app_assoc. reflexivity.
Qed.

(** The lines written when the document has no entry. *)
Lemma insertEntry_no_entry (content newEntry : string) :
  JS.findIndex isEntryLine (linesOf content) = -1 ->
  linesOf (insertEntry content newEntry)
  = (firstn 3 (linesOf content) ++ [EmptyString] ++ linesOf (JS.trim newEntry)
     ++ [EmptyString] ++ skipn 3 (linesOf content))%list.
Proof.
  intros Hi. unfold insertEntry. fold (linesOf content).
  rewrite Hi. unfold JS.orElse. change (-1 =? 0) with false. cbv iota.
  rewrite Z.eqb_refl. cbn [orb].
  unfold linesOf at 1. unfold JS.newline, JS.LF at 1.
  rewrite split_join by (destruct (JS.sliceTo _ _); discriminate).
  rewrite !map_app, !concat_app.
  unfold JS.sliceTo, JS.sliceFrom.
  destruct (pieces_firstn_skipn 3 content) as [P1 P2].
  fold JS.LF. change (Z.to_nat 3) with 3%nat. rewrite P1, P2.
  cbn [map List.concat JS.split app]. rewrite ?app_nil_r, <- ?app_assoc. reflexivity.
Qed.

End Insertion.

Section NewestFirst.

Import ChangelogGenerator.

Local Open Scope Z_scope.

Lemma shown_app (a b : list string) : shown (a ++ b) = (shown a ++ shown b)%list.
Proof. apply filter_app. Qed.

Lemma shown_blank (l : list string) :
  forallb (fun x => negb (JS.nonEmpty x)) l = true -> shown l = [].
Proof.
  induction l as [|x r IH]; cbn [forallb shown filter]; [reflexivity|].
  intros H. apply andb_true_iff in H. destruct H as [Hx Hr].
  apply negb_true_iff in Hx. rewrite Hx. apply IH, Hr.
Qed.

Lemma clean_firstn (n : nat) (l : list string) :
  forallb (fun x => negb (isEntryLine x)) l = true ->
  forallb (fun x => negb (isEntryLine x)) (firstn n l) = true.
Proof.
  intros H. rewrite <- (firstn_skipn n l) in H.
  rewrite forallb_app in H. apply andb_true_iff in H. apply H.
Qed.

Lemma clean_snoc_blank (l : list string) :
  forallb (fun x => negb (isEntryLine x)) l = true ->
  forallb (fun x => negb (isEntryLine x)) (l ++ [EmptyString]) = true.
Proof. intros H. rewrite forallb_app, H. reflexivity. Qed.

(** One insertion into a well-headed document: the result is well headed,
    its header block is the old one and its entries are the new entry
    followed by the old ones, all up to empty lines. *)
Lemma insertEntry_step (content newEntry : string) :
  wellHeaded content = true ->
  opensWithHeading newEntry = true ->
  wellHeaded (insertEntry content newEntry) = true
  /\ shown (headerBlock (linesOf (insertEntry content newEntry)))
     = shown (headerBlock (linesOf content))
  /\ shown (entriesOf (linesOf (insertEntry content newEntry)))
     = (shown (linesOf (JS.trim newEntry)) ++ shown (entriesOf (linesOf content)))%list.
Proof.
  intros Hw He.
  destruct (entry_first_line _ He) as (b & rest & Eb & Hb).
  pose proof (findIndex_range isEntryLine (linesOf content)) as R.
  unfold wellHeaded in Hw |- *.
  destruct (Z.eqb_spec (JS.findIndex isEntryLine (linesOf content)) (-1)) as [Hi|Hi].
  - (* no entry yet *)
    destruct (findIndex_none _ Hi) as [Hh Hn].
    pose proof (headerBlock_clean (linesOf content)) as C. rewrite Hh in C.
    pose proof (insertEntry_no_entry content newEntry Hi) as L.
    assert (L' : linesOf (insertEntry content newEntry)
                 = ((firstn 3 (linesOf content) ++ [EmptyString])
                    ++ (b :: rest ++ [EmptyString] ++ skipn 3 (linesOf content)))%list).
    { rewrite L, Eb, <- app_assoc. reflexivity. }
    destruct (header_app (firstn 3 (linesOf content) ++ [EmptyString])
                (b :: rest ++ [EmptyString] ++ skipn 3 (linesOf content))%list
                b (rest ++ [EmptyString] ++ skipn 3 (linesOf content))%list
                (clean_snoc_blank _ (clean_firstn 3 _ C)) eq_refl Hb)
      as (H1 & H2 & H3).
    rewrite L', H1, H2, H3, Hh, Hn.
    rewrite length_app. cbn [List.length].
    destruct (Z.eqb_spec (Z.of_nat (List.length (firstn 3 (linesOf content)) + 1)) (-1));
      [lia|].
    destruct (Z.eqb_spec (Z.of_nat (List.length (firstn 3 (linesOf content)) + 1)) 0);
      [lia|].
    split; [reflexivity|]. split.
    + rewrite shown_app. cbn [shown filter JS.nonEmpty]. rewrite app_nil_r.
      rewrite <- (firstn_skipn 3 (linesOf content)) at 2.
      rewrite shown_app, (shown_blank _ Hw), app_nil_r. reflexivity.
    + change (b :: rest ++ [EmptyString] ++ skipn 3 (linesOf content))%list
        with ((b :: rest) ++ [EmptyString] ++ skipn 3 (linesOf content))%list.
      rewrite <- Eb, !shown_app, (shown_blank _ Hw). reflexivity.
  - (* an entry below the first line *)
    apply negb_true_iff in Hw. apply Z.eqb_neq in Hw.
    assert (Hpos : 0 < JS.findIndex isEntryLine (linesOf content)) by lia.
    pose proof (insertEntry_before_first content newEntry Hpos) as L.
    destruct (findIndex_some _ Hi) as [F _]. unfold JS.sliceTo in F.
    assert (Len : List.length (headerBlock (linesOf content))
                  = Z.to_nat (JS.findIndex isEntryLine (linesOf content))).
    { rewrite <- F. apply firstn_length_le. lia. }
    assert (L' : linesOf (insertEntry content newEntry)
                 = (headerBlock (linesOf content)
                    ++ (b :: rest ++ [EmptyString] ++ entriesOf (linesOf content)))%list).
    { rewrite L, Eb. reflexivity. }
    destruct (header_app (headerBlock (linesOf content))
                (b :: rest ++ [EmptyString] ++ entriesOf (linesOf content))%list
                b (rest ++ [EmptyString] ++ entriesOf (linesOf content))%list
                (headerBlock_clean _) eq_refl Hb)
      as (H1 & H2 & H3).
    rewrite L', H1, H2, H3, Len.
    destruct (Z.eqb_spec (Z.of_nat (Z.to_nat (JS.findIndex isEntryLine (linesOf content)))) (-1));
      [lia|].
    destruct (Z.eqb_spec (Z.of_nat (Z.to_nat (JS.findIndex isEntryLine (linesOf content)))) 0);
      [lia|].
    split; [reflexivity|]. split; [reflexivity|].
    change (b :: rest ++ [EmptyString] ++ entriesOf (linesOf content))%list
      with ((b :: rest) ++ [EmptyString] ++ entriesOf (linesOf content))%list.
    rewrite <- Eb, !shown_app. reflexivity.
Qed.

(** Any number of insertions, oldest entry first. *)
Lemma insertEntry_sequence (entries : list string) (content : string) :
  wellHeaded content = true ->
  Forall (fun e => opensWithHeading e = true) entries ->
  wellHeaded (fold_left insertEntry entries content) = true
  /\ shown (headerBlock (linesOf (fold_left insertEntry entries content)))
     = shown (headerBlock (linesOf content))
  /\ shown (entriesOf (linesOf (fold_left insertEntry entries content)))
     = (List.concat (map (fun e => shown (linesOf (JS.trim e))) (rev entries))
        ++ shown (entriesOf (linesOf content)))%list.
Proof.
  revert content. induction entries as [|e r IH]; intros content Hw Hall.
  - repeat split. exact Hw.
  - inversion Hall as [|? ? He Hr]; subst.
    destruct (insertEntry_step content e Hw He) as (W1 & H1 & E1).
    destruct (IH (insertEntry content e) W1 Hr) as (W2 & H2 & E2).
    cbn [fold_left rev]. rewrite map_app, concat_app. cbn [map List.concat].
    rewrite app_nil_r.
    split; [exact W2|]. split.
    + rewrite H2. exact H1.
    + rewrite E2, E1, app_assoc. reflexivity.
Qed.

Lemma existingContent_insertAll (entries : list string) (w : World) :
  existingContent (insertAll entries w)
  = fold_left insertEntry entries (existingContent w).
Proof.
  unfold insertAll. revert w. induction entries as [|e r IH]; intros w.
  - reflexivity.
  - cbn [fold_left]. rewrite IH. reflexivity.
Qed.

Lemma trimEnd_keeps (c : ascii) (r : string) :
  JS.isWhiteSpace c = false -> JS.trimEnd (String c r) = String c (JS.trimEnd r).
Proof.
  intros H. cbn [JS.trimEnd]. destruct (JS.trimEnd r); [rewrite H|]; reflexivity.
Qed.

Lemma trimEnd_before (c d : ascii) (r : string) :
  JS.isWhiteSpace d = false ->
  JS.trimEnd (String c (String d r)) = String c (String d (JS.trimEnd r)).
Proof.
  intros H.
  change (JS.trimEnd (String c (String d r)))
    with (match JS.trimEnd (String d r) with
          | EmptyString => if JS.isWhiteSpace c then EmptyString else String c EmptyString
          | String a t => String c (String a t)
          end).
  rewrite (trimEnd_keeps d r H). reflexivity.
Qed.

(** What [generateChangelogEntry] renders opens with its dated heading. *)
Lemma generateChangelogEntry_opens
    (date version : string) (categories : Categories) (branch : string) :
  opensWithHeading (generateChangelogEntry date version categories branch) = true.
Proof.
  unfold opensWithHeading, generateChangelogEntry, JS.trim.
  cbn [append JS.trimStart]. change (JS.isWhiteSpace "#") with false. cbv iota.
  do 2 rewrite trimEnd_keeps by reflexivity.
  rewrite trimEnd_before by reflexivity.
  unfold isEntryLine, JS.startsWith. rewrite !prefix_cons, prefix_nil. reflexivity.
Qed.

(** C9, as amended.  Take a changelog whose first dated entry has something
    above it, or one with no entry and only empty lines after its third line
    (the text a missing file starts from is such a document).  Inserting
    entries that open with their dated heading, one after the other, leaves
    the header block where it was and lists the entries under it newest
    first, above every entry the document held before; each single insertion
    puts the new entry right under the header block. *)
Theorem changelog_newest_first (w : World) (entries : list string) :
  wellHeaded (existingContent w) = true ->
  Forall (fun e => opensWithHeading e = true) entries ->
  shown (linesOf (existingContent (insertAll entries w)))
  = (shown (headerBlock (linesOf (existingContent w)))
     ++ List.concat (map (fun e => shown (linesOf (JS.trim e))) (rev entries))
     ++ shown (entriesOf (linesOf (existingContent w))))%list
  /\ wellHeaded (existingContent (insertAll entries w)) = true
  /\ forall e : string,
       opensWithHeading e = true ->
       placedUnderHeader
         (existingContent (insertAll entries w))
         (existingContent (finalWorld (updateChangelog e (insertAll entries w))))
         e.
Proof.
  intros Hw Hall.
  rewrite existingContent_insertAll.
  destruct (insertEntry_sequence entries (existingContent w) Hw Hall) as (W & H & E).
  split; [|split].
  - rewrite <- (header_entries_app (linesOf (fold_left insertEntry entries (existingContent w)))).
    rewrite shown_app, H, E. reflexivity.
  - exact W.
  - intros e He. unfold placedUnderHeader.
    change (existingContent
              (finalWorld (updateChangelog e (insertAll entries w))))
      with (insertEntry (existingContent (insertAll entries w)) e).
    rewrite existingContent_insertAll.
    destruct (insertEntry_step _ e W He) as (_ & H1 & E1).
    rewrite <- (header_entries_app
                  (linesOf (insertEntry (fold_left insertEntry entries (existingContent w)) e))).
    rewrite shown_app, H1, E1. reflexivity.
Qed.

End NewestFirst.

Section NewestFirstExamples.

Import ChangelogGenerator.

Lemma changelog_newest_first_witness :
  shown (linesOf (existingContent
                    (insertAll [Changelogs.entry1; Changelogs.entry2] Samples.quiet)))
  = ["# Changelog";
     "All notable changes to this project will be documented in this file.";
     "## [15.3.1] - 2024-06-01";
     "### Angular 15.x Compatibility";
     "### 🐛 Bug Fixes";
     "- fix: c (b2c3d4e)";
     "## [15.3.0] - 2024-05-01";
     "### Angular 15.x Compatibility";
     "### ✨ Features";
     "- feat: b (e4f5a6b)";
     "### 🐛 Bug Fixes";
     "- fix: a (a1b2c3d)"].
Proof.
  pose proof (proj1 (changelog_newest_first Samples.quiet
                       [Changelogs.entry1; Changelogs.entry2]
                       eq_refl
                       (Forall_cons _ (generateChangelogEntry_opens _ _ _ _)
                          (Forall_cons _ (generateChangelogEntry_opens _ _ _ _)
                             (Forall_nil _))))) as H.
  vm_compute in H. vm_compute. exact H.
Defined.

(** C9 as written fails: with a header of four lines and no entry yet, the
    entry lands after the third line, inside the header block. *)
Lemma long_header_entry_misplaced :
  ~ (forall (w : World) (e : string),
       opensWithHeading e = true ->
       placedUnderHeader
         (existingContent w)
         (existingContent (finalWorld (updateChangelog e w)))
         e).
Proof.
  intros H.
  specialize (H (Changelogs.withChangelog Changelogs.longHeader Samples.quiet)
                Changelogs.entry2 (generateChangelogEntry_opens _ _ _ _)).
  unfold placedUnderHeader in H. vm_compute in H. discriminate H.
Qed.

End NewestFirstExamples.

(* ================================================================== *)
(** * Reading version strings in the Resolver *)
(* ================================================================== *)

Section Parsing.

Import VersionHelper.


Lemma decimal_digit (c : ascii) : JS.isRadixDigit 10 c = Spec.isDecimal c.
Proof. destruct c as [[] [] [] [] [] [] [] []]; reflexivity. Qed.

















End Parsing.

(* ================================================================== *)
(** * More on the Resolver *)
(* ================================================================== *)

Section ResolverMore.

Import VersionHelper.

(** X1. The Resolver reads a version given in the form [major.minor.patch],
    with numbers below 2^53, back as those three integers. *)
Theorem resolver_reads_rendered_version (major minor patch : Z) :
  safe major -> safe minor -> safe patch ->
  currentMajor (renderVersion major minor patch) = JS.Num major
  /\ currentMinor (renderVersion major minor patch) = JS.Num minor
  /\ currentPatch (renderVersion major minor patch) = JS.Num patch.
Proof.
  intros H1 H2 H3.
  destruct (resolver_reads major minor patch) as (-> & -> & ->);
    try (unfold safe in *; lia).
  rewrite (proj1 (toDouble_safe major H1)), (proj1 (toDouble_safe minor H2)),
    (proj1 (toDouble_safe patch H3)).
  repeat split.
Qed.

Lemma resolver_reads_rendered_version_witness :
  currentMajor "14.0.5" = JS.Num 14
  /\ currentMinor "14.0.5" = JS.Num 0
  /\ currentPatch "14.0.5" = JS.Num 5.
Proof.
  apply (resolver_reads_rendered_version 14 0 5); unfold safe, JS.safeLimit; lia.
Defined.

Lemma getCurrentBranch_cases (w : World) :
  (exists b, getCurrentBranch w = Returned b w) \/ getCurrentBranch w = Exited 1 w.
Proof.
  unfold getCurrentBranch. destruct (Git.run Git.RevParseHead (repo w)).
  - left. eexists. reflexivity.
  - right. reflexivity.
Qed.

(** The branch query only looks at the repository. *)
Lemma getCurrentBranch_same_repo (w w' : World) (b : string) :
  repo w' = repo w ->
  getCurrentBranch w = Returned b w -> getCurrentBranch w' = Returned b w'.
Proof.
  unfold getCurrentBranch. intros ->.
  destruct (Git.run Git.RevParseHead (repo w)); congruence.
Qed.

Lemma update_without_branch (w : World) :
  getCurrentBranch w = Exited 1 w -> updatePackageVersion w = Exited 1 w.
Proof.
  intros Hb. unfold updatePackageVersion, bind, getWorld. rewrite Hb. reflexivity.
Qed.

(** The outcome of [update], by cases on the branch and the major version. *)
Lemma update_cases (w : World) :
  (getCurrentBranch w = Exited 1 w /\ updatePackageVersion w = Exited 1 w)
  \/ (exists b, getCurrentBranch w = Returned b w
        /\ (b <> "main" \/ currentMajor (version (rootPackage w)) = JS.Num 15)
        /\ updatePackageVersion w = Returned tt w)
  \/ (getCurrentBranch w = Returned "main" w
      /\ currentMajor (version (rootPackage w)) <> JS.Num 15
      /\ updatePackageVersion w =
           Returned tt
             (withVersion
                ("15.2." ++ JS.showNumber (currentPatch (version (rootPackage w)))) w)).
Proof.
  destruct (getCurrentBranch_cases w) as [[b Hb]|Hb].
  - destruct (string_dec b "main") as [->|Hn].
    + destruct (differs (currentMajor (version (rootPackage w))) 15) eqn:D.
      * apply differs_spec in D. right; right.
        split; [exact Hb|]. split; [exact D|]. apply update_on_main_adjusts; assumption.
      * apply differs_false in D. right; left. exists "main".
        split; [exact Hb|]. split; [right; exact D|]. apply update_on_main_keeps; assumption.
    + right; left. exists b. split; [exact Hb|]. split; [left; exact Hn|].
      apply (update_off_main w b); assumption.
  - left. split; [exact Hb|]. apply update_without_branch, Hb.
Qed.

(** X2. Running [update] a second time changes nothing: the outcome of two
    runs in a row is the outcome of one. *)
Theorem update_idempotent (w : World) :
  (updatePackageVersion ;;; updatePackageVersion) w = updatePackageVersion w.
Proof.
  unfold bind at 1.
  destruct (update_cases w) as [[_ ->]|[(b & Hb & _ & E)|(Hb & Hm & E)]].
  - reflexivity.
  - rewrite E. exact E.
  - rewrite E.
    apply update_on_main_keeps.
    + apply (getCurrentBranch_same_repo w); [reflexivity | exact Hb].
    + apply currentMajor_adjusted.
Qed.

(** X3. Whenever [update] comes back, [validate] accepts the world it
    leaves. *)
Theorem update_then_validate (w w' : World) :
  updatePackageVersion w = Returned tt w' ->
  validateVersionForBranch w' = Returned tt w'.
Proof.
  intros U.
  destruct (update_cases w) as [[_ E]|[(b & Hb & Hok & E)|(Hb & Hm & E)]];
    rewrite E in U; [discriminate U| |]; injection U as <-.
  - apply (validate_passes w b); assumption.
  - apply (validate_passes _ "main").
    + apply (getCurrentBranch_same_repo w); [reflexivity | exact Hb].
    + right. apply currentMajor_adjusted.
Qed.

Lemma update_then_validate_witness :
  validateVersionForBranch
    (withVersion "15.2.5" (Samples.world "main" [Samples.release] "14.0.5"))
  = Returned tt (withVersion "15.2.5" (Samples.world "main" [Samples.release] "14.0.5")).
Proof.
  apply (update_then_validate (Samples.world "main" [Samples.release] "14.0.5")).
  reflexivity.
Defined.

(** X4. With the branch known, [validate] rejects the manifest exactly when
    [update] would rewrite it. *)
Theorem validate_rejects_what_update_rewrites (w : World) (b : string) :
  getCurrentBranch w = Returned b w ->
  (exitStatus (validateVersionForBranch w) <> 0%Z
   <-> finalWorld (updatePackageVersion w) <> w).
Proof.
  intros Hb.
  destruct (update_cases w) as [[Hx _]|[(b' & Hb' & Hok & E)|(Hb3 & Hm & E)]].
  - rewrite Hb in Hx. discriminate Hx.
  - rewrite E, (validate_passes w b' Hb' Hok). cbn. split; congruence.
  - rewrite E, (validate_on_main_rejects w Hb3 Hm).
    cbn. split; [|discriminate]. intros _ Heq.
    apply (f_equal (fun x => version (rootPackage x))) in Heq. cbn in Heq.
    pose proof (adjusted_is_new _ Hm) as N. apply String.eqb_neq in N.
    apply N. exact Heq.
Qed.

Lemma validate_rejects_what_update_rewrites_witness :
  exitStatus (validateVersionForBranch (Samples.world "main" [Samples.release] "14.0.5"))
    <> 0%Z
  <-> finalWorld (updatePackageVersion (Samples.world "main" [Samples.release] "14.0.5"))
      <> Samples.world "main" [Samples.release] "14.0.5".
Proof.
  apply (validate_rejects_what_update_rewrites _ "main"). reflexivity.
Defined.

(** X5. [update] touches nothing but version numbers: the repository, the
    changelog, both package names and the presence of the library manifest
    are as before; when it rewrites, both manifests carry the same version. *)
Theorem update_frame (w : World) :
  repo (finalWorld (updatePackageVersion w)) = repo w
  /\ changelogFile (finalWorld (updatePackageVersion w)) = changelogFile w
  /\ name (rootPackage (finalWorld (updatePackageVersion w))) = name (rootPackage w)
  /\ option_map name (libPackage (finalWorld (updatePackageVersion w)))
     = option_map name (libPackage w)
  /\ (finalWorld (updatePackageVersion w) = w
      \/ option_map version (libPackage (finalWorld (updatePackageVersion w)))
         = option_map (fun _ => version (rootPackage (finalWorld (updatePackageVersion w))))
             (libPackage w)).
Proof.
  destruct (update_cases w) as [[_ E]|[(b & _ & _ & E)|(_ & _ & E)]]; rewrite E; cbn.
  - repeat split. left; reflexivity.
  - repeat split. left; reflexivity.
  - repeat split.
    + destruct (libPackage w); reflexivity.
    + right. destruct (libPackage w); reflexivity.
Qed.

End ResolverMore.

(* ================================================================== *)
(** * More on the Bumper *)
(* ================================================================== *)

Section BumperMore.

Import SafeVersionBump.

Local Open Scope Z_scope.

Lemma calculateNewVersion_reaches_ceiling_core
    (major minor patch : Z) (bumpType : string) (constraints : Constraints) :
  safe major -> safe minor -> safe patch ->
  0 <= maxMajor constraints < JS.safeLimit ->
  0 <= defaultMinor constraints < JS.safeLimit ->
  bumpType = "minor" \/ bumpType = "patch" ->
  exists minor' patch',
    0 <= minor' <= Z.max (minor + 1) (defaultMinor constraints)
    /\ 0 <= patch' <= patch + 1
    /\ calculateNewVersion (renderVersion major minor patch) bumpType constraints
       = renderVersion (maxMajor constraints) minor' patch'
    /\ renderVersion (maxMajor constraints) minor' patch'
       <> renderVersion major minor patch.
Proof.
  intros H1 H2 H3 Hm Hd Hb.
  unfold calculateNewVersion.
  rewrite (split_renderVersion major minor patch H1 H2 H3).
  cbn [nth_error JS.gt JS.lt JS.succ JS.showValue JS.showNumber].
  rewrite (proj2 (toDouble_safe minor H2)), (proj2 (toDouble_safe patch H3)).
  unfold safe in H1, H2, H3.
  destruct (Z.ltb_spec (maxMajor constraints) major) as [G|G].
  - exists (defaultMinor constraints), 0. repeat split; try lia.
    intros E. apply renderVersion_inj in E; lia.
  - destruct (Z.ltb_spec major (maxMajor constraints)) as [L|L].
    + exists (defaultMinor constraints), patch. repeat split; try lia.
      intros E. apply renderVersion_inj in E; lia.
    + assert (major = maxMajor constraints) by lia. subst major.
      destruct Hb as [-> | ->]; cbn [String.eqb Ascii.eqb Bool.eqb].
      * exists (minor + 1), 0. repeat split; try lia.
        intros E. apply renderVersion_inj in E; lia.
      * exists minor, (patch + 1). repeat split; try lia.
        intros E. apply renderVersion_inj in E; lia.
Qed.

(** X6. For a current version with numbers below 2^53, a bump of "minor" or
    "patch" and a policy of non-negative integers below 2^53, the new
    version is again a triple of non-negative integers, each at most one
    above the current one or the policy's, its major is the policy's
    [maxMajor], and it differs from the current version. *)
Theorem calculateNewVersion_reaches_ceiling
    (major minor patch : Z) (bumpType : string) (constraints : Constraints) :
  safe major -> safe minor -> safe patch ->
  0 <= maxMajor constraints < JS.safeLimit ->
  0 <= defaultMinor constraints < JS.safeLimit ->
  bumpType = "minor" \/ bumpType = "patch" ->
  exists minor' patch',
    0 <= minor' <= Z.max (minor + 1) (defaultMinor constraints)
    /\ 0 <= patch' <= patch + 1
    /\ calculateNewVersion (renderVersion major minor patch) bumpType constraints
       = renderVersion (maxMajor constraints) minor' patch'
    /\ renderVersion (maxMajor constraints) minor' patch'
       <> renderVersion major minor patch.
Proof.
  apply calculateNewVersion_reaches_ceiling_core.
Qed.

Lemma calculateNewVersion_reaches_ceiling_witness :
  exists minor' patch',
    0 <= minor' <= Z.max (4 + 1) 2
    /\ 0 <= patch' <= 5 + 1
    /\ calculateNewVersion "16.4.5" "patch" {| maxMajor := 15; defaultMinor := 2 |}
       = renderVersion 15 minor' patch'
    /\ renderVersion 15 minor' patch' <> "16.4.5".
Proof.
  apply (calculateNewVersion_reaches_ceiling 16 4 5 "patch"
           {| maxMajor := 15; defaultMinor := 2 |});
    try (unfold safe, JS.safeLimit; simpl; lia). right; reflexivity.
Defined.

Lemma split_two_components (major minor : Z) :
  safe major -> safe minor ->
  map JS.StringToNumber (JS.split "."%char (JS.showZ major ++ "." ++ JS.showZ minor))
  = [JS.Num major; JS.Num minor].
Proof.
  intros H1 H2.
  destruct (showZ_digits major (proj1 H1)) as (D1 & _).
  destruct (showZ_digits minor (proj1 H2)) as (D2 & _).
  change (JS.showZ major ++ "." ++ JS.showZ minor)
    with (JS.showZ major ++ String "."%char (JS.showZ minor)).
  rewrite (split_digits_dot _ _ D1), (split_digits _ D2).
  cbn [map]. rewrite !StringToNumber_safe by assumption. reflexivity.
Qed.

(** X7. A current version with only two components, [major.minor], numbers
    below 2^53 and a policy of integers a double holds: the missing patch is
    [undefined].  Below the ceiling the new version ends in ".undefined", at
    the ceiling a "patch" bump ends in ".NaN"; a "minor" bump and the clamp
    from above give a well-formed version. *)
Theorem calculateNewVersion_two_components
    (major minor : Z) (bumpType : string) (constraints : Constraints) :
  safe major -> safe minor -> safePolicy constraints ->
  (maxMajor constraints < major ->
     calculateNewVersion (JS.showZ major ++ "." ++ JS.showZ minor) bumpType constraints
     = renderVersion (maxMajor constraints) (defaultMinor constraints) 0)
  /\ (major < maxMajor constraints ->
     calculateNewVersion (JS.showZ major ++ "." ++ JS.showZ minor) bumpType constraints
     = JS.showZ (maxMajor constraints) ++ "." ++ JS.showZ (defaultMinor constraints)
       ++ ".undefined")
  /\ (major = maxMajor constraints ->
     calculateNewVersion (JS.showZ major ++ "." ++ JS.showZ minor) "minor" constraints
     = renderVersion major (minor + 1) 0
     /\ calculateNewVersion (JS.showZ major ++ "." ++ JS.showZ minor) "patch" constraints
     = JS.showZ major ++ "." ++ JS.showZ minor ++ ".NaN").
Proof.
  intros H1 H2 _. unfold calculateNewVersion.
  rewrite (split_two_components major minor H1 H2).
  cbn [nth_error JS.gt JS.lt JS.succ JS.showValue JS.showNumber].
  rewrite (proj2 (toDouble_safe minor H2)).
  repeat split.
  - intros G. apply Z.ltb_lt in G. rewrite G. reflexivity.
  - intros L.
    assert (G : (maxMajor constraints <? major) = false) by (apply Z.ltb_ge; lia).
    apply Z.ltb_lt in L. rewrite G, L. reflexivity.
  - subst major. rewrite Z.ltb_irrefl. reflexivity.
  - subst major. rewrite Z.ltb_irrefl. reflexivity.
Qed.

Lemma calculateNewVersion_two_components_witness :
  calculateNewVersion "14.1" "minor" {| maxMajor := 15; defaultMinor := 2 |}
    = "15.2.undefined"
  /\ calculateNewVersion "15.2" "patch" {| maxMajor := 15; defaultMinor := 2 |}
     = "15.2.NaN".
Proof.
  assert (P : safePolicy {| maxMajor := 15; defaultMinor := 2 |})
    by (unfold safePolicy, JS.safeLimit; cbn; lia).
  assert (S : forall z, 0 <= z < 100 -> safe z)
    by (unfold safe, JS.safeLimit; intros; lia).
  split.
  - apply (proj1 (proj2 (calculateNewVersion_two_components 14 1 "minor"
             {| maxMajor := 15; defaultMinor := 2 |} (S 14 ltac:(lia)) (S 1 ltac:(lia)) P))).
    simpl; lia.
  - apply (proj2 (proj2 (calculateNewVersion_two_components 15 2 "patch"
             {| maxMajor := 15; defaultMinor := 2 |} (S 15 ltac:(lia)) (S 2 ltac:(lia)) P))).
    reflexivity.
Defined.

Lemma existsb_perm {A : Type} (p : A -> bool) (l l' : list A) :
  Permutation l l' -> existsb p l = existsb p l'.
Proof.
  induction 1 as [|x l l' _ IH|x y l|l l' l'' _ IH1 _ IH2]; cbn [existsb].
  - reflexivity.
  - rewrite IH. reflexivity.
  - destruct (p x), (p y); reflexivity.
  - congruence.
Qed.

(** X8. The bump depends on which commits there are, not on their order or
    grouping: two lists that are permutations of each other get the same
    bump, and a concatenation gets "minor" exactly when one of its parts
    does. *)
Theorem analyzeCommits_order_free (xs ys : list string) :
  (Permutation xs ys -> analyzeCommits xs = analyzeCommits ys)
  /\ (analyzeCommits (xs ++ ys)%list = "minor"
      <-> analyzeCommits xs = "minor" \/ analyzeCommits ys = "minor").
Proof.
  split.
  - intros P. rewrite !analyzeCommits_flags.
    rewrite (existsb_perm Rules.isBreaking xs ys P), (existsb_perm Rules.isFeature xs ys P).
    reflexivity.
  - rewrite !analyzeCommits_flags, !existsb_app.
    destruct (existsb Rules.isBreaking xs), (existsb Rules.isFeature xs),
             (existsb Rules.isBreaking ys), (existsb Rules.isFeature ys);
      cbn; split; intros H; try (left; reflexivity); try (right; reflexivity);
      try reflexivity; try discriminate H; destruct H as [H|H]; discriminate H.
Qed.

Lemma analyzeCommits_order_free_witness :
  analyzeCommits ["a1b2c3d fix: a"; "e4f5a6b feat!: b"]
  = analyzeCommits ["e4f5a6b feat!: b"; "a1b2c3d fix: a"].
Proof.
  apply (proj1 (analyzeCommits_order_free
                  ["a1b2c3d fix: a"; "e4f5a6b feat!: b"]
                  ["e4f5a6b feat!: b"; "a1b2c3d fix: a"])).
  apply perm_swap.
Defined.

End BumperMore.

Section BumperRun.

Import SafeVersionBump.

Local Open Scope Z_scope.

Lemma first_number_rendered (major minor patch : Z) :
  safe major -> 0 <= minor -> 0 <= patch ->
  nth_error (map JS.StringToNumber (JS.split "."%char (renderVersion major minor patch))) 0
  = Some (JS.Num major).
Proof.
  intros H1 H2 H3. rewrite split_rendered by (unfold safe in H1; lia).
  cbn [map nth_error]. rewrite (StringToNumber_safe major H1). reflexivity.
Qed.

Lemma bump_with_commits_core
    (w : World) (major minor patch : Z) (commits : list string) :
  getCurrentBranch w = Returned "main" w ->
  plainRepository (repo w) ->
  version (rootPackage w) = renderVersion major minor patch ->
  safe major -> safe minor -> safe patch ->
  getCommitsSinceLastTag w = Returned commits w ->
  commits <> [] ->
  exists minor' patch',
    0 <= minor' <= Z.max (minor + 1) 2
    /\ 0 <= patch' <= patch + 1
    /\ calculateNewVersion (renderVersion major minor patch) (analyzeCommits commits)
         {| maxMajor := 15; defaultMinor := 2 |}
       = renderVersion 15 minor' patch'
    /\ renderVersion 15 minor' patch' <> renderVersion major minor patch
    /\ main (Some "bump") w = Returned tt (withVersion (renderVersion 15 minor' patch') w)
    /\ VersionHelper.validateVersionForBranch (withVersion (renderVersion 15 minor' patch') w)
       = Returned tt (withVersion (renderVersion 15 minor' patch') w).
Proof.
  intros Hb _ Hv H1 H2 H3 Hl Hne.
  destruct (calculateNewVersion_reaches_ceiling_core major minor patch
              (analyzeCommits commits) {| maxMajor := 15; defaultMinor := 2 |}
              H1 H2 H3 ltac:(unfold JS.safeLimit; cbn; lia)
              ltac:(unfold JS.safeLimit; cbn; lia) (analyzeCommits_two commits))
    as (m' & p' & Hm' & Hp' & E & N).
  cbn [maxMajor defaultMinor] in E, N, Hm'.
  exists m', p'. split; [exact Hm'|]. split; [exact Hp'|].
  split; [exact E|]. split; [exact N|]. split.
  - change (main (Some "bump")) with safeBumpVersion.
    unfold safeBumpVersion, bind, getWorld. rewrite Hb.
    cbn [getVersionConstraints String.eqb Ascii.eqb Bool.eqb]. rewrite Hl, Hv.
    destruct commits as [|c r]; [congruence|]. cbn [List.length Nat.eqb].
    rewrite E. apply String.eqb_neq in N. rewrite N.
    rewrite (first_number_rendered 15 m' p')
      by (unfold safe, JS.safeLimit; lia).
    cbn [maxMajor JS.gt]. rewrite Z.ltb_irrefl.
    unfold updatePackageFiles, bind, getWorld, modify, ret, withVersion, writeRoot, writeLib.
    cbn. destruct (libPackage w); reflexivity.
  - apply (validate_passes _ "main").
    + apply (getCurrentBranch_same_repo w); [reflexivity | exact Hb].
    + right. cbn [withVersion rootPackage setVersion version].
      apply (resolver_major_15 15 m' p'); lia.
Qed.

(** X9. On "main", in a repository without merge commits and with clean
    log lines, from a version with numbers below 2^53 and with at least one
    commit collected, the bump always goes through: the process ends
    with status 0, both manifests get the version [calculateNewVersion]
    computes, that version is new, its major is 15, and [validate] accepts
    the result. *)
Theorem bump_with_commits
    (w : World) (major minor patch : Z) (commits : list string) :
  getCurrentBranch w = Returned "main" w ->
  plainRepository (repo w) ->
  version (rootPackage w) = renderVersion major minor patch ->
  safe major -> safe minor -> safe patch ->
  getCommitsSinceLastTag w = Returned commits w ->
  commits <> [] ->
  exists minor' patch',
    0 <= minor' <= Z.max (minor + 1) 2
    /\ 0 <= patch' <= patch + 1
    /\ calculateNewVersion (renderVersion major minor patch) (analyzeCommits commits)
         {| maxMajor := 15; defaultMinor := 2 |}
       = renderVersion 15 minor' patch'
    /\ renderVersion 15 minor' patch' <> renderVersion major minor patch
    /\ main (Some "bump") w = Returned tt (withVersion (renderVersion 15 minor' patch') w)
    /\ VersionHelper.validateVersionForBranch (withVersion (renderVersion 15 minor' patch') w)
       = Returned tt (withVersion (renderVersion 15 minor' patch') w).
Proof.
  apply bump_with_commits_core.
Qed.

End BumperRun.

Section BumperFrame.

Import SafeVersionBump.

Local Open Scope Z_scope.

Lemma bump_with_commits_witness :
  exists minor' patch',
    0 <= minor' <= Z.max (2 + 1) 2
    /\ 0 <= patch' <= 5 + 1
    /\ calculateNewVersion "15.2.5"
         (analyzeCommits ["e4f5a6b feat: b"; "a1b2c3d fix: a"])
         {| maxMajor := 15; defaultMinor := 2 |}
       = renderVersion 15 minor' patch'
    /\ renderVersion 15 minor' patch' <> "15.2.5"
    /\ main (Some "bump") Samples.fixThenFeat
       = Returned tt (withVersion (renderVersion 15 minor' patch') Samples.fixThenFeat)
    /\ VersionHelper.validateVersionForBranch
         (withVersion (renderVersion 15 minor' patch') Samples.fixThenFeat)
       = Returned tt (withVersion (renderVersion 15 minor' patch') Samples.fixThenFeat).
Proof.
  apply (bump_with_commits Samples.fixThenFeat 15 2 5
           ["e4f5a6b feat: b"; "a1b2c3d fix: a"]);
    try reflexivity; try (unfold safe, JS.safeLimit; lia);
    [(split; [reflexivity | split; [repeat constructor | intros t [= <-]; reflexivity]]) | discriminate].
Defined.

Lemma bumper_branch_cases (w : World) :
  (exists b, getCurrentBranch w = Returned b w) \/ getCurrentBranch w = Exited 1 w.
Proof.
  unfold getCurrentBranch. destruct (Git.run Git.RevParseHead (repo w)).
  - left. eexists. reflexivity.
  - right. reflexivity.
Qed.

(** The outcome of a bump is the world it started from, or that world with
    one version written to both manifests. *)
Lemma safeBumpVersion_outcome (w : World) :
  finalWorld (safeBumpVersion w) = w
  \/ exists newVersion,
       safeBumpVersion w = Returned tt (withVersion newVersion w)
       /\ newVersion <> version (rootPackage w).
Proof.
  unfold safeBumpVersion, bind, getWorld.
  destruct (bumper_branch_cases w) as [[b ->]| ->]; [|left; reflexivity].
  destruct (getVersionConstraints b) as [constraints|]; [|left; reflexivity].
  destruct (getCommitsSinceLastTag_returns w) as [commits ->].
  destruct (Nat.eqb (List.length commits) 0); [left; reflexivity|].
  destruct (String.eqb_spec
              (calculateNewVersion (version (rootPackage w)) (analyzeCommits commits)
                 constraints)
              (version (rootPackage w))) as [_|N]; [left; reflexivity|].
  destruct (JS.gt _ (maxMajor constraints)); [left; reflexivity|].
  right. eexists. split; [|exact N].
  unfold updatePackageFiles, bind, getWorld, modify, ret, withVersion, writeRoot, writeLib.
  cbn. destruct (libPackage w); reflexivity.
Qed.

(** X10. A bump touches nothing but version numbers: the repository, the
    changelog, both package names and the presence of the library manifest
    are as before; and when the world changed, the root manifest has a new
    version and the library manifest, if any, the same one. *)
Theorem bump_frame (w : World) :
  repo (finalWorld (safeBumpVersion w)) = repo w
  /\ changelogFile (finalWorld (safeBumpVersion w)) = changelogFile w
  /\ name (rootPackage (finalWorld (safeBumpVersion w))) = name (rootPackage w)
  /\ option_map name (libPackage (finalWorld (safeBumpVersion w)))
     = option_map name (libPackage w)
  /\ (finalWorld (safeBumpVersion w) = w
      \/ (version (rootPackage (finalWorld (safeBumpVersion w))) <> version (rootPackage w)
          /\ option_map version (libPackage (finalWorld (safeBumpVersion w)))
             = option_map
                 (fun _ => version (rootPackage (finalWorld (safeBumpVersion w))))
                 (libPackage w))).
Proof.
  destruct (safeBumpVersion_outcome w) as [E|(v & E & N)]; rewrite E.
  - repeat split. left; reflexivity.
  - cbn. repeat split.
    + destruct (libPackage w); reflexivity.
    + right. split; [exact N|]. destruct (libPackage w); reflexivity.
Qed.



End BumperFrame.

(* ================================================================== *)
(** * Collecting commits from the log output *)
(* ================================================================== *)

Section Collect.

Lemma string_app_nil_r (s : string) : s ++ EmptyString = s.
Proof. induction s as [|c r IH]; cbn [append]; [|rewrite IH]; reflexivity. Qed.

Lemma string_app_assoc (a b c : string) : (a ++ b) ++ c = a ++ b ++ c.
Proof. induction a as [|x r IH]; cbn [append]; [|rewrite IH]; reflexivity. Qed.

Lemma trimStart_clean (s : string) : startsClean s = true -> JS.trimStart s = s.
Proof.
  destruct s as [|c r]; [discriminate|]. cbn [startsClean JS.trimStart].
  intros H. apply negb_true_iff in H. rewrite H. reflexivity.
Qed.

Lemma trimEnd_clean (s : string) : endsClean s = true -> JS.trimEnd s = s.
Proof.
  induction s as [|c r IH]; [discriminate|].
  cbn [endsClean JS.trimEnd]. destruct r as [|d r'].
  - intros H. apply negb_true_iff in H. cbn [JS.trimEnd]. rewrite H. reflexivity.
  - intros H. rewrite (IH H). reflexivity.
Qed.

Lemma trimEnd_newline (s : string) : JS.trimEnd (s ++ JS.newline) = JS.trimEnd s.
Proof.
  induction s as [|c r IH]; [reflexivity|].
  cbn [append JS.trimEnd]. rewrite IH. reflexivity.
Qed.

Lemma startsClean_app (a b : string) :
  startsClean a = true -> startsClean (a ++ b) = true.
Proof. destruct a; [discriminate|]. intros H. exact H. Qed.

Lemma endsClean_app (a b : string) :
  endsClean b = true -> endsClean (a ++ b) = true.
Proof.
  intros H. induction a as [|c r IH]; [exact H|].
  cbn [append endsClean]. destruct (r ++ b); [discriminate IH | exact IH].
Qed.

Lemma startsClean_nonEmpty (s : string) : startsClean s = true -> JS.nonEmpty s = true.
Proof. destruct s; [discriminate | reflexivity]. Qed.

Lemma cleanLine_parts (s : string) :
  cleanLine s = true ->
  startsClean s = true /\ endsClean s = true /\ lacks JS.LF s = true.
Proof.
  unfold cleanLine. intros H.
  apply andb_true_iff in H. destruct H as [H H3].
  apply andb_true_iff in H. destruct H as [H1 H2]. repeat split; assumption.
Qed.

Lemma trim_clean (s : string) : cleanLine s = true -> JS.trim s = s.
Proof.
  intros H. destruct (cleanLine_parts s H) as (H1 & H2 & _).
  unfold JS.trim. rewrite (trimStart_clean s H1). apply trimEnd_clean, H2.
Qed.

Lemma trim_clean_line (s : string) :
  cleanLine s = true -> JS.trim (s ++ JS.newline) = s.
Proof.
  intros H. destruct (cleanLine_parts s H) as (H1 & H2 & _).
  unfold JS.trim. rewrite (trimStart_clean _ (startsClean_app s _ H1)).
  rewrite trimEnd_newline. apply trimEnd_clean, H2.
Qed.

Lemma split_lacks (c : ascii) (s : string) :
  lacks c s = true -> JS.split c s = [s].
Proof.
  induction s as [|a r IH]; [reflexivity|]. cbn [lacks JS.split]. intros H.
  apply andb_true_iff in H. destruct H as [Ha Hr].
  apply negb_true_iff in Ha. rewrite Ha, (IH Hr). reflexivity.
Qed.

Lemma printLines_cons (l : string) (ls : list string) :
  Git.printLines (l :: ls) = l ++ JS.newline ++ Git.printLines ls.
Proof.
  unfold Git.printLines. cbn [map]. destruct ls as [|x r].
  - cbn [map String.concat]. rewrite string_app_nil_r. reflexivity.
  - cbn [map]. cbn [String.concat]. rewrite string_app_assoc. reflexivity.
Qed.

Lemma printLines_join (l : string) (ls : list string) :
  Git.printLines (l :: ls) = JS.join JS.newline (l :: ls) ++ JS.newline.
Proof.
  revert l. induction ls as [|x r IH]; intros l.
  - rewrite printLines_cons. reflexivity.
  - rewrite printLines_cons, IH. unfold JS.join. cbn [String.concat].
    rewrite !string_app_assoc. reflexivity.
Qed.

Lemma join_clean (l : string) (ls : list string) :
  Forall (fun x => cleanLine x = true) (l :: ls) ->
  startsClean (JS.join JS.newline (l :: ls)) = true
  /\ endsClean (JS.join JS.newline (l :: ls)) = true.
Proof.
  revert l. induction ls as [|x r IH]; intros l H.
  - inversion H as [|? ? Hl _]; subst. destruct (cleanLine_parts l Hl) as (H1 & H2 & _).
    split; assumption.
  - inversion H as [|? ? Hl Hr]; subst.
    destruct (cleanLine_parts l Hl) as (H1 & _).
    destruct (IH x Hr) as [_ E].
    unfold JS.join in *. cbn [String.concat]. split.
    + apply startsClean_app, H1.
    + apply endsClean_app, endsClean_app, E.
Qed.

(** What the collectors make of a printed log: one entry per printed line. *)
Lemma lines_read_back (ls : list string) :
  Forall (fun x => cleanLine x = true) ls ->
  (if JS.nonEmpty (JS.trim (Git.printLines ls))
   then filter (fun line => JS.nonEmpty (JS.trim line))
          (JS.split JS.LF (JS.trim (Git.printLines ls)))
   else [])
  = ls.
Proof.
  intros H. destruct ls as [|l r]; [reflexivity|].
  destruct (join_clean l r H) as [S E].
  assert (T : JS.trim (Git.printLines (l :: r)) = JS.join JS.newline (l :: r)).
  { rewrite printLines_join. unfold JS.trim.
    rewrite (trimStart_clean _ (startsClean_app _ _ S)), trimEnd_newline.
    apply trimEnd_clean, E. }
  rewrite T, (startsClean_nonEmpty _ S).
  unfold JS.newline, JS.LF at 2. rewrite split_join by discriminate. fold JS.LF.
  rewrite concat_split_pieces.
  - apply forallb_filter_id. apply forallb_forall. intros x Hx.
    rewrite Forall_forall in H. rewrite (trim_clean x (H x Hx)).
    apply startsClean_nonEmpty. apply (cleanLine_parts x (H x Hx)).
  - apply Forall_forall. intros x Hx. rewrite Forall_forall in H.
    apply split_lacks. apply (cleanLine_parts x (H x Hx)).
Qed.

Lemma since_lastTag (h : list Git.Commit) (t : string) :
  Git.lastTag h = Some t -> Git.since t h = Some (untagged h).
Proof.
  induction h as [|c r IH]; [discriminate|]. cbn [Git.lastTag Git.since untagged].
  destruct (Git.tags c) as [|t0 ts].
  - intros H. cbn [existsb]. rewrite (IH H). reflexivity.
  - intros [= ->]. cbn [existsb]. rewrite String.eqb_refl. reflexivity.
Qed.

Lemma clean_sublist (sub h : list Git.Commit) :
  incl sub h ->
  Forall (fun c => cleanLine (Git.oneline c) = true) h ->
  Forall (fun x => cleanLine x = true) (map Git.oneline sub).
Proof.
  intros I H. apply Forall_forall. intros x Hx.
  apply in_map_iff in Hx. destruct Hx as (c & <- & Hc).
  rewrite Forall_forall in H. apply H, I, Hc.
Qed.

Lemma incl_untagged (h : list Git.Commit) : incl (untagged h) h.
Proof.
  induction h as [|c r IH]; [apply incl_refl|]. cbn [untagged].
  destruct (Git.tags c); [|apply incl_nil_l].
  apply incl_cons; [left; reflexivity|]. apply incl_tl, IH.
Qed.

Lemma incl_firstn {A : Type} (n : nat) (l : list A) : incl (firstn n l) l.
Proof.
  intros x Hx. rewrite <- (firstn_skipn n l). apply in_or_app. left. exact Hx.
Qed.

Lemma incl_listed (noMerges : bool) (h : list Git.Commit) : incl (listed noMerges h) h.
Proof.
  unfold listed. destruct (Git.lastTag h), noMerges.
  - eapply incl_tran; [apply incl_filter | apply incl_untagged].
  - apply incl_untagged.
  - eapply incl_tran; [apply incl_firstn | apply incl_filter].
  - apply incl_firstn.
Qed.

End Collect.

Section Collectors.

Lemma log_output (w : World) (noMerges : bool) (t : string) :
  Git.lastTag (Git.history (repo w)) = Some t ->
  Git.run (Git.Log (Some t) noMerges None) (repo w)
  = Some (Git.printLines (map Git.oneline (listed noMerges (Git.history (repo w))))).
Proof.
  intros T. unfold listed. rewrite T. cbn [Git.run].
  rewrite (since_lastTag _ t T).
  destruct (Git.history (repo w)); [discriminate T|].
  destruct noMerges; reflexivity.
Qed.

Lemma log_output_untagged (w : World) (noMerges : bool) :
  Git.lastTag (Git.history (repo w)) = None ->
  Git.history (repo w) <> [] ->
  Git.run (Git.Log None noMerges (Some 10%Z)) (repo w)
  = Some (Git.printLines (map Git.oneline (listed noMerges (Git.history (repo w))))).
Proof.
  intros T N. unfold listed. rewrite T. cbn [Git.run].
  destruct (Git.history (repo w)); [congruence|].
  destruct noMerges; reflexivity.
Qed.

Lemma collectors_core (w : World) :
  Forall (fun c => cleanLine (Git.oneline c) = true) (Git.history (repo w)) ->
  (forall t, Git.lastTag (Git.history (repo w)) = Some t -> cleanLine t = true) ->
  SafeVersionBump.getCommitsSinceLastTag w
    = Returned (map Git.oneline (listed false (Git.history (repo w)))) w
  /\ ChangelogGenerator.getCommitsSinceLastTag w
     = Returned
         {| ChangelogGenerator.commits :=
              map Git.oneline (listed true (Git.history (repo w)));
            ChangelogGenerator.lastTag := Git.lastTag (Git.history (repo w)) |} w.
Proof.
  intros Hc Ht.
  pose proof (fun nm => lines_read_back _
                (clean_sublist _ _ (incl_listed nm (Git.history (repo w))) Hc)) as R.
  unfold SafeVersionBump.getCommitsSinceLastTag, ChangelogGenerator.getCommitsSinceLastTag.
  unfold bind, ret, SafeVersionBump.runCommand, ChangelogGenerator.runCommand.
  change (Git.run Git.DescribeOrEmpty (repo w))
    with (match Git.lastTag (Git.history (repo w)) with
          | Some t => Some (t ++ JS.newline)
          | None => Some JS.newline
          end).
  destruct (Git.lastTag (Git.history (repo w))) as [t|] eqn:T.
  - pose proof (Ht t eq_refl) as Ct.
    rewrite (trim_clean_line t Ct).
    rewrite (startsClean_nonEmpty t (proj1 (cleanLine_parts t Ct))).
    rewrite !(log_output w _ t T), (R false), (R true). split; reflexivity.
  - change (JS.trim JS.newline) with EmptyString. cbn [JS.nonEmpty].
    destruct (Git.history (repo w)) as [|c r] eqn:H.
    + cbn [Git.run]. rewrite H. split; reflexivity.
    + rewrite !(log_output_untagged w) by (rewrite ?H; congruence).
      rewrite H, (R false), (R true). split; reflexivity.
Qed.

Lemma tagChar_plain (c : ascii) :
  isTagChar c = true -> JS.isWhiteSpace c = false /\ Ascii.eqb c JS.LF = false.
Proof.
  destruct c as [[] [] [] [] [] [] [] []]; vm_compute; intros H;
    try discriminate H; split; reflexivity.
Qed.

Lemma allTagChars_clean (c : ascii) (r : string) :
  allTagChars (String c r) = true ->
  endsClean (String c r) = true /\ lacks JS.LF (String c r) = true.
Proof.
  revert c. induction r as [|d r IH]; intros c H.
  - cbn [allTagChars] in H. apply andb_true_iff in H. destruct H as [Hc _].
    destruct (tagChar_plain c Hc) as [W L].
    cbn [endsClean lacks]. rewrite W, L. split; reflexivity.
  - cbn [allTagChars] in H. apply andb_true_iff in H. destruct H as [Hc Hr].
    destruct (tagChar_plain c Hc) as [_ L].
    destruct (IH d Hr) as [E K].
    split.
    + exact E.
    + change (lacks JS.LF (String c (String d r)))
        with (negb (Ascii.eqb c JS.LF) && lacks JS.LF (String d r)).
      rewrite L, K. reflexivity.
Qed.

Lemma plainTag_clean (t : string) : plainTag t = true -> cleanLine t = true.
Proof.
  destruct t as [|c r]; [discriminate|]. unfold plainTag. intros H.
  apply andb_true_iff in H. destruct H as [_ H].
  destruct (allTagChars_clean c r H) as [E K].
  cbn [allTagChars] in H. apply andb_true_iff in H. destruct H as [Hc _].
  destruct (tagChar_plain c Hc) as [W _].
  unfold cleanLine. rewrite E, K. cbn [startsClean]. rewrite W. reflexivity.
Qed.

Lemma filter_all {A : Type} (p : A -> bool) (sub l : list A) :
  incl sub l -> forallb p l = true -> filter p sub = sub.
Proof.
  intros I H. apply forallb_filter_id. apply forallb_forall. intros x Hx.
  rewrite forallb_forall in H. apply H, I, Hx.
Qed.

Lemma listed_linear (h : list Git.Commit) :
  linearHistory h = true -> listed true h = listed false h.
Proof.
  unfold linearHistory, listed. intros H. destruct (Git.lastTag h).
  - apply (filter_all nonMerge _ h (incl_untagged h) H).
  - rewrite (filter_all nonMerge h h (incl_refl h) H). reflexivity.
Qed.

(** X12. On a repository without merge commits whose log lines are clean
    (not empty, no white space at either end, no line feed inside) and in
    ASCII, and whose nearest tag is a plain name, both collectors return
    exactly the printed lines, one per commit: the commits above the nearest
    tag, or the first ten when there is no tag.  The Changelog Generator
    also reports the tag it found. *)
Theorem collectors_read_the_log (w : World) :
  plainRepository (repo w) ->
  SafeVersionBump.getCommitsSinceLastTag w
    = Returned (map Git.oneline (listed false (Git.history (repo w)))) w
  /\ ChangelogGenerator.getCommitsSinceLastTag w
     = Returned
         {| ChangelogGenerator.commits :=
              map Git.oneline (listed false (Git.history (repo w)));
            ChangelogGenerator.lastTag := Git.lastTag (Git.history (repo w)) |} w.
Proof.
  intros (L & Hc & Ht).
  rewrite <- (listed_linear _ L) at 2.
  apply collectors_core.
  - apply Forall_forall. intros c Hin. rewrite Forall_forall in Hc. apply (Hc c Hin).
  - intros t E. apply plainTag_clean, Ht, E.
Qed.

Lemma collectors_read_the_log_witness :
  SafeVersionBump.getCommitsSinceLastTag Samples.fixThenFeat
    = Returned (map Git.oneline [Samples.featB; Samples.fixA]) Samples.fixThenFeat
  /\ ChangelogGenerator.getCommitsSinceLastTag Samples.fixThenFeat
     = Returned
         {| ChangelogGenerator.commits := map Git.oneline [Samples.featB; Samples.fixA];
            ChangelogGenerator.lastTag := Some "main-v15.2.5" |} Samples.fixThenFeat.
Proof.
  apply (collectors_read_the_log Samples.fixThenFeat).
  split; [reflexivity | split; [repeat constructor | intros t [= <-]; reflexivity]].
Defined.

End Collectors.

(* ================================================================== *)
(** * More on the Changelog Generator *)
(* ================================================================== *)

Section GeneratorMore.

Import ChangelogGenerator.

Lemma filter_kinds_perm (k : string -> Rules.Kind) (l : list string) :
  Permutation
    (filter (fun c => Rules.Kind_eqb (k c) Rules.Breaking) l
     ++ filter (fun c => Rules.Kind_eqb (k c) Rules.Feature) l
     ++ filter (fun c => Rules.Kind_eqb (k c) Rules.Fix) l
     ++ filter (fun c => Rules.Kind_eqb (k c) Rules.Other) l)%list
    l.
Proof.
  induction l as [|x r IH]; [constructor|].
  cbn [filter]. destruct (k x); cbn [Rules.Kind_eqb].
  - cbn [app]. constructor. exact IH.
  - symmetry. apply Permutation_cons_app. symmetry. exact IH.
  - symmetry. rewrite app_assoc. apply Permutation_cons_app.
    rewrite <- app_assoc. symmetry. exact IH.
  - symmetry. rewrite !app_assoc. apply Permutation_cons_app.
    rewrite <- !app_assoc. symmetry. exact IH.
Qed.

(** X13. Sorting loses and duplicates nothing: the four buckets together
    hold exactly the commits that came in, each once. *)
Theorem categorizeCommits_partition (commits : list string) :
  Permutation
    (breaking (categorizeCommits commits) ++ features (categorizeCommits commits)
     ++ fixes (categorizeCommits commits) ++ other (categorizeCommits commits))%list
    commits
  /\ (List.length (breaking (categorizeCommits commits))
      + List.length (features (categorizeCommits commits))
      + List.length (fixes (categorizeCommits commits))
      + List.length (other (categorizeCommits commits))
      = List.length commits)%nat.
Proof.
  assert (P := filter_kinds_perm bucket commits).
  rewrite categorizeCommits_sortedBy. cbn [sortedBy breaking features fixes other].
  split; [exact P|].
  apply Permutation_length in P. rewrite !length_app in P. lia.
Qed.

Lemma concat_cons_sep (sep x : string) (l : list string) :
  l <> [] -> String.concat sep (x :: l) = x ++ sep ++ String.concat sep l.
Proof. destruct l; [congruence | reflexivity]. Qed.

(** Joining what a split gave restores the string. *)
Lemma join_split (sep : ascii) (s : string) :
  JS.join (String sep EmptyString) (JS.split sep s) = s.
Proof.
  unfold JS.join. induction s as [|c r IH]; [reflexivity|].
  cbn [JS.split]. pose proof (split_nonempty sep r) as N.
  destruct (Ascii.eqb_spec c sep) as [->|Hc].
  - rewrite concat_cons_sep by exact N. rewrite IH. reflexivity.
  - destruct (JS.split sep r) as [|h t]; [congruence|].
    destruct t as [|h2 t'].
    + cbn [String.concat] in *. rewrite IH. reflexivity.
    + rewrite concat_cons_sep by discriminate.
      rewrite concat_cons_sep in IH by discriminate.
      cbn [append] in *. rewrite IH. reflexivity.
Qed.

(** X14. A log line is a hash without spaces, a space and the subject; its
    bullet shows the whole subject, spaces included, then the hash in
    parentheses.  A line without any space gives an empty subject. *)
Theorem bullet_of_log_line (hash subject : string) :
  lacks " "%char hash = true ->
  bullet (hash ++ " " ++ subject) = "- " ++ subject ++ " (" ++ hash ++ ")" ++ JS.newline
  /\ bullet hash = "-  (" ++ hash ++ ")" ++ JS.newline.
Proof.
  intros H. unfold bullet. split.
  - change (hash ++ " " ++ subject) with (hash ++ String " "%char subject).
    rewrite split_app_sep, (split_lacks _ _ H). cbn [app].
    change " " with (String " "%char EmptyString) at 2.
    rewrite join_split. reflexivity.
  - rewrite (split_lacks _ _ H). reflexivity.
Qed.

Lemma bullet_of_log_line_witness :
  bullet "e4f5a6b feat: add a  picker" = "- feat: add a  picker (e4f5a6b)" ++ JS.newline
  /\ bullet "e4f5a6b" = "-  (e4f5a6b)" ++ JS.newline.
Proof.
  apply (bullet_of_log_line "e4f5a6b" "feat: add a  picker"). reflexivity.
Defined.

Local Open Scope Z_scope.

(** The lines written when the document opens with a dated entry. *)
Lemma insertEntry_at_top (content newEntry : string) :
  JS.findIndex isEntryLine (linesOf content) = 0 ->
  linesOf (insertEntry content newEntry)
  = (firstn 3 (linesOf content) ++ [EmptyString] ++ linesOf (JS.trim newEntry)
     ++ [EmptyString] ++ skipn 3 (linesOf content))%list.
Proof.
  intros Hi. unfold insertEntry. fold (linesOf content).
  rewrite Hi. unfold JS.orElse. change (0 =? 0) with true. cbv iota.
  rewrite Z.eqb_refl, orb_true_r.
  unfold linesOf at 1. unfold JS.newline, JS.LF at 1.
  rewrite split_join by (destruct (JS.sliceTo _ _); discriminate).
  rewrite !map_app, !concat_app.
  unfold JS.sliceTo, JS.sliceFrom.
  destruct (pieces_firstn_skipn 3 content) as [P1 P2].
  fold JS.LF. change (Z.to_nat 3) with 3%nat. rewrite P1, P2.
  cbn [map List.concat JS.split app]. rewrite ?app_nil_r, <- ?app_assoc. reflexivity.
Qed.

(** X15. Whatever the changelog looks like, an insertion keeps every line
    of it, in order: the new text is the old lines cut in two with the
    trimmed entry, an empty line after it and at most one before it, put in
    between.  The cut is at the first dated entry when that is below the
    first line, and after the third line otherwise. *)
Theorem insertEntry_keeps_lines (content newEntry : string) :
  exists (cut : nat) (pad : list string),
    linesOf (insertEntry content newEntry)
    = (firstn cut (linesOf content) ++ pad ++ linesOf (JS.trim newEntry)
       ++ [EmptyString] ++ skipn cut (linesOf content))%list
    /\ ((0 < JS.findIndex isEntryLine (linesOf content)
         /\ cut = Z.to_nat (JS.findIndex isEntryLine (linesOf content))
         /\ pad = [])
        \/ (JS.findIndex isEntryLine (linesOf content) <= 0
            /\ cut = 3%nat /\ pad = [EmptyString])).
Proof.
  pose proof (findIndex_range isEntryLine (linesOf content)) as R.
  destruct (Z.compare_spec (JS.findIndex isEntryLine (linesOf content)) 0) as [E|L|G].
  - exists 3%nat, [EmptyString]. split; [apply insertEntry_at_top, E|].
    right. repeat split. lia.
  - exists 3%nat, [EmptyString].
    split; [apply insertEntry_no_entry; lia|]. right. repeat split. lia.
  - exists (Z.to_nat (JS.findIndex isEntryLine (linesOf content))), [].
    split; [|left; repeat split; lia].
    rewrite (insertEntry_before_first content newEntry G).
    assert (N : JS.findIndex isEntryLine (linesOf content) <> -1) by lia.
    destruct (findIndex_some _ N) as [H1 H2]. unfold JS.sliceTo, JS.sliceFrom in H1, H2.
    rewrite H1, H2. reflexivity.
Qed.

End GeneratorMore.

(* ================================================================== *)
(** * Running the scripts one after the other *)
(* ================================================================== *)

Section Composition.

Import SafeVersionBump.

Local Open Scope Z_scope.

Lemma analyzeCommits_on_log_lines_witness :
  analyzeCommits ["e4f5a6b feat: b"; "a1b2c3d fix: a"] = "patch"
  /\ analyzeCommits ["c0d1e2f FEAT!: drop the old api"; "a1b2c3d fix: a"] = "minor".
Proof.
  split.
  - apply (analyzeCommits_on_log_lines [Samples.featB; Samples.fixA]).
    repeat constructor.
  - apply (analyzeCommits_on_log_lines [Samples.featBang; Samples.fixA]).
    repeat constructor.
Defined.

Lemma runCommand_value (c : Git.Command) (w : World) :
  runCommand c w
  = Returned (match Git.run c (repo w) with
              | Some result => JS.trim result
              | None => EmptyString
              end) w.
Proof. unfold runCommand. destruct (Git.run c (repo w)); reflexivity. Qed.

(** Collecting commits only looks at the repository. *)
Lemma getCommits_same_repo (w w' : World) (commits : list string) :
  repo w' = repo w ->
  getCommitsSinceLastTag w = Returned commits w ->
  getCommitsSinceLastTag w' = Returned commits w'.
Proof.
  unfold getCommitsSinceLastTag, bind, ret. intros R.
  rewrite (runCommand_value _ w), (runCommand_value _ w').
  rewrite (runCommand_value _ w), (runCommand_value _ w'). rewrite R.
  intros [= <-]. reflexivity.
Qed.

Lemma withVersion_twice (v1 v2 : string) (w : World) :
  withVersion v2 (withVersion v1 w) = withVersion v2 w.
Proof. unfold withVersion. cbn. destruct (libPackage w); reflexivity. Qed.

(** X16. The bump is not idempotent.  On "main", in a repository without
    merge commits and with clean log lines, from a version with numbers
    below 2^53 - 1 and with at least one commit collected, a second
    run right after the first (nothing tagged in between) finds the same
    commits and bumps again: the two runs leave a version that differs from
    the one the first run wrote. *)
Theorem bump_twice
    (w : World) (major minor patch : Z) (commits : list string) :
  getCurrentBranch w = Returned "main" w ->
  plainRepository (repo w) ->
  version (rootPackage w) = renderVersion major minor patch ->
  safe major -> safe (minor + 1) -> safe (patch + 1) ->
  0 <= minor -> 0 <= patch ->
  getCommitsSinceLastTag w = Returned commits w ->
  commits <> [] ->
  exists minor1 patch1 minor2 patch2,
    safeBumpVersion w = Returned tt (withVersion (renderVersion 15 minor1 patch1) w)
    /\ (safeBumpVersion ;;; safeBumpVersion) w
       = Returned tt (withVersion (renderVersion 15 minor2 patch2) w)
    /\ renderVersion 15 minor2 patch2
       = calculateNewVersion (renderVersion 15 minor1 patch1) (analyzeCommits commits)
           {| maxMajor := 15; defaultMinor := 2 |}
    /\ renderVersion 15 minor2 patch2 <> renderVersion 15 minor1 patch1.
Proof.
  intros Hb Hp Hv H1 H2 H3 N2 N3 Hl Hne.
  assert (S2 : safe minor) by (unfold safe in *; lia).
  assert (S3 : safe patch) by (unfold safe in *; lia).
  destruct (bump_with_commits_core w major minor patch commits Hb Hp Hv H1 S2 S3 Hl Hne)
    as (m1 & p1 & Hm1 & Hp1 & _ & _ & B1 & _).
  change (main (Some "bump")) with safeBumpVersion in B1.
  destruct (bump_with_commits_core (withVersion (renderVersion 15 m1 p1) w) 15 m1 p1 commits)
    as (m2 & p2 & Hm2 & Hp2 & E2 & N & B2 & _);
    try (unfold safe, JS.safeLimit in *; lia); try assumption.
  - apply (getCurrentBranch_same_repo w); [reflexivity | exact Hb].
  - reflexivity.
  - apply (getCommits_same_repo w); [reflexivity | exact Hl].
  - change (main (Some "bump")) with safeBumpVersion in B2.
    rewrite withVersion_twice in B2.
    exists m1, p1, m2, p2. split; [exact B1|]. split.
    + unfold bind at 1. rewrite B1. exact B2.
    + split; [symmetry; exact E2 | exact N].
Qed.

Lemma bump_twice_witness :
  exists minor1 patch1 minor2 patch2,
    safeBumpVersion Samples.fixThenFeat
      = Returned tt (withVersion (renderVersion 15 minor1 patch1) Samples.fixThenFeat)
    /\ (safeBumpVersion ;;; safeBumpVersion) Samples.fixThenFeat
       = Returned tt (withVersion (renderVersion 15 minor2 patch2) Samples.fixThenFeat)
    /\ renderVersion 15 minor2 patch2
       = calculateNewVersion (renderVersion 15 minor1 patch1)
           (analyzeCommits ["e4f5a6b feat: b"; "a1b2c3d fix: a"])
           {| maxMajor := 15; defaultMinor := 2 |}
    /\ renderVersion 15 minor2 patch2 <> renderVersion 15 minor1 patch1.
Proof.
  apply (bump_twice Samples.fixThenFeat 15 2 5 ["e4f5a6b feat: b"; "a1b2c3d fix: a"]);
    try reflexivity; try (unfold safe, JS.safeLimit; lia);
    [(split; [reflexivity | split; [repeat constructor | intros t [= <-]; reflexivity]]) | discriminate].
Defined.

End Composition.

(* ================================================================== *)
(** * The shape of a rendered entry *)
(* ================================================================== *)

Section EntryShape.

Import ChangelogGenerator.

Lemma lacks_app (a : ascii) (x y : string) :
  lacks a (x ++ y) = lacks a x && lacks a y.
Proof.
  induction x as [|c r IH]; [reflexivity|].
  cbn [append lacks]. rewrite IH, andb_assoc. reflexivity.
Qed.

Lemma split_pieces_lack (a b : ascii) (s : string) :
  lacks a s = true -> Forall (fun p => lacks a p = true) (JS.split b s).
Proof.
  induction s as [|c r IH]; intros H.
  - repeat constructor.
  - cbn [lacks] in H. apply andb_true_iff in H. destruct H as [Hc Hr].
    specialize (IH Hr). cbn [JS.split].
    destruct (Ascii.eqb c b).
    + constructor; [reflexivity | exact IH].
    + pose proof (split_nonempty b r) as N.
      destruct (JS.split b r) as [|h t]; [congruence|].
      inversion IH as [|? ? Hh Ht]; subst.
      constructor; [|exact Ht]. cbn [lacks]. rewrite Hc, Hh. reflexivity.
Qed.

Lemma concat_lacks (a : ascii) (sep : string) (l : list string) :
  lacks a sep = true ->
  Forall (fun p => lacks a p = true) l ->
  lacks a (String.concat sep l) = true.
Proof.
  intros Hs H. induction H as [|x r Hx Hr IH]; [reflexivity|].
  destruct r as [|y r'].
  - exact Hx.
  - rewrite concat_cons_sep by discriminate.
    rewrite !lacks_app, Hx, Hs, IH. reflexivity.
Qed.

Lemma concat_empty_cons (x : string) (l : list string) :
  String.concat EmptyString (x :: l) = x ++ String.concat EmptyString l.
Proof.
  destruct l as [|y r].
  - cbn [String.concat]. rewrite string_app_nil_r. reflexivity.
  - reflexivity.
Qed.

(** A bullet is one line that starts with "- ", closed by a line feed. *)
Lemma bullet_line (commit : string) :
  lacks JS.LF commit = true ->
  exists line,
    bullet commit = line ++ JS.newline
    /\ lacks JS.LF line = true
    /\ isEntryLine line = false.
Proof.
  intros H. unfold bullet.
  pose proof (split_pieces_lack JS.LF " "%char commit H) as P.
  pose proof (split_nonempty " "%char commit) as N.
  destruct (JS.split " "%char commit) as [|hash messageParts]; [congruence|].
  inversion P as [|? ? Hh Hm]; subst.
  exists ("- " ++ JS.join " " messageParts ++ " (" ++ hash ++ ")"). split; [|split].
  - rewrite !string_app_assoc. reflexivity.
  - rewrite !lacks_app. unfold JS.join.
    rewrite (concat_lacks JS.LF " " messageParts eq_refl Hm), Hh. reflexivity.
  - reflexivity.
Qed.

Lemma lines_terminated (l rest : string) :
  lacks JS.LF l = true ->
  linesOf (l ++ JS.newline ++ rest) = l :: linesOf rest.
Proof.
  intros H. unfold linesOf.
  change (l ++ JS.newline ++ rest) with (l ++ String JS.LF rest).
  rewrite split_app_sep, (split_lacks _ _ H). reflexivity.
Qed.

Lemma bullets_skipped (commits : list string) (rest : string) :
  Forall (fun c => lacks JS.LF c = true) commits ->
  filter isEntryLine (linesOf (String.concat EmptyString (map bullet commits) ++ rest))
  = filter isEntryLine (linesOf rest).
Proof.
  induction 1 as [|c r Hc Hr IH]; [reflexivity|].
  cbn [map]. rewrite concat_empty_cons.
  destruct (bullet_line c Hc) as (line & -> & L & NE).
  rewrite (string_app_assoc (line ++ JS.newline)), (string_app_assoc line).
  rewrite (lines_terminated _ _ L).
  cbn [filter]. rewrite NE. exact IH.
Qed.

Lemma section_skipped (title : string) (commits : list string) (rest : string) :
  lacks JS.LF title = true -> isEntryLine title = false ->
  Forall (fun c => lacks JS.LF c = true) commits ->
  filter isEntryLine (linesOf (section title commits ++ rest))
  = filter isEntryLine (linesOf rest).
Proof.
  intros Lt Et H. unfold section. destruct commits as [|c r]; [reflexivity|].
  cbn [List.length Nat.ltb Nat.leb].
  rewrite !string_app_assoc, (lines_terminated _ _ Lt).
  cbn [filter]. rewrite Et, (bullets_skipped _ _ H).
  change (JS.newline ++ rest) with (EmptyString ++ JS.newline ++ rest).
  rewrite (lines_terminated EmptyString rest eq_refl). reflexivity.
Qed.

(** X19. When the version, the date and the commit lines hold no line feed,
    a rendered entry has exactly one line that starts like a dated heading:
    its first, "## [version] - date".  So each insertion adds one dated
    entry to the changelog, whatever the commit subjects say. *)
Theorem entry_has_one_heading
    (date version : string) (categories : Categories) (branch : string) :
  lacks JS.LF date = true -> lacks JS.LF version = true ->
  Forall (fun c => lacks JS.LF c = true) (breaking categories) ->
  Forall (fun c => lacks JS.LF c = true) (features categories) ->
  Forall (fun c => lacks JS.LF c = true) (fixes categories) ->
  Forall (fun c => lacks JS.LF c = true) (other categories) ->
  filter isEntryLine (linesOf (generateChangelogEntry date version categories branch))
  = ["## [" ++ version ++ "] - " ++ date].
Proof.
  intros Ld Lv H1 H2 H3 H4. unfold generateChangelogEntry.
  assert (E : forall tail,
             "## [" ++ version ++ "] - " ++ date ++ JS.newline ++ tail
             = ("## [" ++ version ++ "] - " ++ date) ++ JS.newline ++ tail).
  { intros tail. rewrite !string_app_assoc. reflexivity. }
  rewrite E. rewrite lines_terminated
    by (rewrite !lacks_app, Lv, Ld; reflexivity).
  cbn [filter].
  assert (Hh : isEntryLine ("## [" ++ version ++ "] - " ++ date) = true).
  { unfold isEntryLine, JS.startsWith. cbn [append].
    rewrite !prefix_cons, prefix_nil. reflexivity. }
  rewrite Hh. f_equal.
  change (JS.newline ++ "### Angular " ++ "15.x" ++ " Compatibility" ++ JS.newline ++ JS.newline
          ++ section "### 🚨 Breaking Changes" (breaking categories)
          ++ section "### ✨ Features" (features categories)
          ++ section "### 🐛 Bug Fixes" (fixes categories)
          ++ section "### 🔧 Other Changes" (other categories))
    with (EmptyString ++ JS.newline ++ "### Angular 15.x Compatibility" ++ JS.newline
          ++ EmptyString ++ JS.newline
          ++ section "### 🚨 Breaking Changes" (breaking categories)
          ++ section "### ✨ Features" (features categories)
          ++ section "### 🐛 Bug Fixes" (fixes categories)
          ++ section "### 🔧 Other Changes" (other categories)).
  rewrite (lines_terminated EmptyString _ eq_refl). cbn [filter].
  change (isEntryLine EmptyString) with false. cbv iota.
  rewrite (lines_terminated "### Angular 15.x Compatibility" _ eq_refl). cbn [filter].
  change (isEntryLine "### Angular 15.x Compatibility") with false. cbv iota.
  rewrite (lines_terminated EmptyString _ eq_refl). cbn [filter].
  change (isEntryLine EmptyString) with false. cbv iota.
  rewrite (section_skipped "### 🚨 Breaking Changes" _ _ eq_refl eq_refl H1).
  rewrite (section_skipped "### ✨ Features" _ _ eq_refl eq_refl H2).
  rewrite (section_skipped "### 🐛 Bug Fixes" _ _ eq_refl eq_refl H3).
  rewrite <- (string_app_nil_r (section "### 🔧 Other Changes" (other categories))).
  rewrite (section_skipped "### 🔧 Other Changes" _ _ eq_refl eq_refl H4).
  reflexivity.
Qed.

Lemma entry_has_one_heading_witness :
  filter isEntryLine (linesOf Changelogs.entry1) = ["## [15.3.0] - 2024-05-01"].
Proof.
  apply (entry_has_one_heading "2024-05-01" "15.3.0"
           (categorizeCommits ["e4f5a6b feat: b"; "a1b2c3d fix: a"]) "main");
    try reflexivity; repeat constructor.
Defined.

End EntryShape.
